(** * The glTF post-processor of [utils/gltf-material-modifier.py]

    A shallow embedding of the in-memory part of the script: the document
    that [json.load] returns, the scene reorientation ([reorient_scene]),
    the quaternion product ([multiply_quaternions]) and the material loop of
    [modify_gltf].  Python values are modelled as a tree of JSON values,
    Python exceptions as an error result, and [logging] calls as a list of
    records written next to the result. *)

From Stdlib Require Import ZArith List String Ascii Bool Lia.
From Stdlib Require Import Floats.PrimFloat Floats.SpecFloat Floats.FloatOps.
From Stdlib Require Strings.Byte DecimalString DecimalNat.
Import ListNotations.

Local Open Scope string_scope.
Local Open Scope list_scope.
Local Open Scope Z_scope.

(** ** Values

    [json.load] maps JSON numbers without fraction or exponent to Python
    [int] (unbounded) and the others to [float] (binary64); [null] is
    [None], objects are [dict] (insertion ordered, string keys) and arrays
    are [list].  A [str] is modelled by [string], a sequence of the
    characters with a code below 256. *)

Inductive num : Set :=
| NInt (z : Z)
| NFloat (f : float).

#[local] Set Warnings "-register-all".

Inductive json : Set :=
| JNull
| JBool (b : bool)
| JNum (n : num)
| JStr (s : string)
| JArr (items : list json)
| JObj (fields : list (string * json)).

Definition dict : Set := list (string * json).

Abbreviation JInt z := (JNum (NInt z)).
Abbreviation JFloat f := (JNum (NFloat f)).

(** ** Exceptions and the logging monad *)

Inductive exn : Set :=
| KeyError
| IndexError
| TypeError
| AttributeError
| OverflowError.

Inductive outcome (A : Type) : Type :=
| Ok (a : A)
| Raise (e : exn).
Arguments Ok {A} a.
Arguments Raise {A} e.

Inductive level : Set := INFO | WARNING.

Definition log_record : Set := level * string.

(** A computation returns a value or raises, and writes log records on the
    way; the records written before an exception are kept. *)
Definition M (A : Type) : Type := outcome A * list log_record.

Definition ret {A} (a : A) : M A := (Ok a, []).
Definition raise {A} (e : exn) : M A := (Raise e, []).
Definition log (l : level) (msg : string) : M unit := (Ok tt, [(l, msg)]).

Definition bind {A B} (m : M A) (k : A -> M B) : M B :=
  match m with
  | (Ok a, w) => let (r, w') := k a in (r, (w ++ w')%list)
  | (Raise e, w) => (Raise e, w)
  end.

Notation "x <- m ;; k" := (bind m (fun x => k))
  (at level 61, m at next level, right associativity).
Notation "m ;;; k" := (bind m (fun _ => k))
  (at level 61, right associativity).

Definition of_option {A} (e : exn) (o : option A) : M A :=
  match o with
  | Some a => ret a
  | None => raise e
  end.

(** ** dict and list primitives *)

(** [d[k]] and [d.get(k)]: the first binding of [k]. *)
Fixpoint dict_get (k : string) (d : dict) : option json :=
  match d with
  | [] => None
  | (k', v) :: d' => if String.eqb k k' then Some v else dict_get k d'
  end.

(** [d[k] = v]: an existing key keeps its position, a new key goes last. *)
Fixpoint dict_set (k : string) (v : json) (d : dict) : dict :=
  match d with
  | [] => [(k, v)]
  | (k', v') :: d' =>
      if String.eqb k k' then (k', v) :: d' else (k', v') :: dict_set k v d'
  end.

(** The position a Python sequence of length [n] gives to index [i]
    (negative indices count from the end). *)
Definition norm_index (n : nat) (i : Z) : option nat :=
  let j := if i <? 0 then i + Z.of_nat n else i in
  if (0 <=? j) && (j <? Z.of_nat n) then Some (Z.to_nat j) else None.

Definition list_index {A} (l : list A) (i : Z) : option A :=
  match norm_index (List.length l) i with
  | Some p => nth_error l p
  | None => None
  end.

Fixpoint list_update {A} (l : list A) (p : nat) (v : A) : list A :=
  match l, p with
  | [], _ => []
  | _ :: l', O => v :: l'
  | x :: l', S p' => x :: list_update l' p' v
  end.

(** An [int] or [bool] used as an index ([__index__]). *)
Definition as_index (i : json) : option Z :=
  match i with
  | JNum (NInt z) => Some z
  | JBool b => Some (if b then 1 else 0)
  | _ => None
  end.

(** Truth value of a value ([bool(x)]). *)
Definition truthy (x : json) : bool :=
  match x with
  | JNull => false
  | JBool b => b
  | JNum (NInt z) => negb (z =? 0)
  | JNum (NFloat f) => negb (PrimFloat.eqb f 0)
  | JStr s => negb (String.eqb s "")
  | JArr l => match l with [] => false | _ => true end
  | JObj d => match d with [] => false | _ => true end
  end.

(** [x.get(k)]: only a dict has the method; a missing key gives [None]. *)
Definition py_get (x : json) (k : string) : M json :=
  match x with
  | JObj d => ret (match dict_get k d with Some v => v | None => JNull end)
  | _ => raise AttributeError
  end.

(** [c[i]]. *)
Definition py_getitem (c i : json) : M json :=
  match c with
  | JArr l =>
      match as_index i with
      | Some z => of_option IndexError (list_index l z)
      | None => raise TypeError
      end
  | JStr s =>
      match as_index i with
      | Some z =>
          match norm_index (String.length s) z with
          | Some p =>
              match String.get p s with
              | Some ch => ret (JStr (String ch EmptyString))
              | None => raise IndexError
              end
          | None => raise IndexError
          end
      | None => raise TypeError
      end
  | JObj d =>
      match i with
      | JStr k => of_option KeyError (dict_get k d)
      | JArr _ | JObj _ => raise TypeError (* unhashable key *)
      | _ => raise KeyError
      end
  | _ => raise TypeError
  end.

(** [len(c)]. *)
Definition py_len (c : json) : M Z :=
  match c with
  | JArr l => ret (Z.of_nat (List.length l))
  | JObj d => ret (Z.of_nat (List.length d))
  | JStr s => ret (Z.of_nat (String.length s))
  | _ => raise TypeError
  end.

Definition str_contains (k s : string) : bool :=
  match String.index 0 k s with
  | Some _ => true
  | None => false
  end.

Definition is_str (k : string) (x : json) : bool :=
  match x with
  | JStr s => String.eqb k s
  | _ => false
  end.

(** [k in c] for a string [k]: key of a dict, element of a list, substring
    of a str. *)
Definition py_contains (k : string) (c : json) : M bool :=
  match c with
  | JObj d => ret (match dict_get k d with Some _ => true | None => false end)
  | JArr l => ret (existsb (is_str k) l)
  | JStr s => ret (str_contains k s)
  | _ => raise TypeError
  end.

(** [c[k] = v] for a string [k]; the result is the mutated object. *)
Definition py_setitem (c : json) (k : string) (v : json) : M json :=
  match c with
  | JObj d => ret (JObj (dict_set k v d))
  | _ => raise TypeError
  end.

(** [c.append(v)]. *)
Definition py_append (c v : json) : M json :=
  match c with
  | JArr l => ret (JArr (l ++ [v])%list)
  | _ => raise AttributeError
  end.

(** [c.setdefault(k, v)]: the value now bound to [k], and the mutated
    object. *)
Definition py_setdefault (c : json) (k : string) (v : json) : M (json * json) :=
  match c with
  | JObj d =>
      match dict_get k d with
      | Some v' => ret (v', c)
      | None => ret (v, JObj (dict_set k v d))
      end
  | _ => raise AttributeError
  end.

Fixpoint chars (s : string) : list json :=
  match s with
  | EmptyString => []
  | String ch s' => JStr (String ch EmptyString) :: chars s'
  end.

(** The items [for x in c] visits. *)
Definition py_iter (c : json) : M (list json) :=
  match c with
  | JArr l => ret l
  | JObj d => ret (map (fun kv => JStr (fst kv)) d)
  | JStr s => ret (chars s)
  | _ => raise TypeError
  end.

(** The document is a tree without sharing when [json.load] returns it, so
    a mutation of an object reached as [c[i]] is the replacement of the
    item at that place of [c].  [store_item c i v] is [c] with the item at
    index or key [i] replaced by [v]; it is used only where [c[i]] was read
    before. *)
Definition store_item (c i v : json) : json :=
  match c with
  | JArr l =>
      match as_index i with
      | Some z =>
          match norm_index (List.length l) z with
          | Some p => JArr (list_update l p v)
          | None => c
          end
      | None => c
      end
  | JObj d =>
      match i with
      | JStr k => JObj (dict_set k v d)
      | _ => c
      end
  | _ => c
  end.

(** ** Numbers *)

(** [float(z)] for an [int]: the nearest double, ties to even;
    [OverflowError] when it is out of range. *)
Definition float_of_Z (z : Z) : M float :=
  let f := SF2Prim (binary_normalize prec emax z 0 false) in
  if PrimFloat.is_infinity f then raise OverflowError else ret f.

Definition num_binop (fz : Z -> Z -> Z) (ff : float -> float -> float)
    (a b : num) : M num :=
  match a, b with
  | NInt x, NInt y => ret (NInt (fz x y))
  | NFloat x, NFloat y => ret (NFloat (ff x y))
  | NInt x, NFloat y => x' <- float_of_Z x ;; ret (NFloat (ff x' y))
  | NFloat x, NInt y => y' <- float_of_Z y ;; ret (NFloat (ff x y'))
  end.

(** A value used as a number: [bool] is a subclass of [int]. *)
Definition as_num (x : json) : option num :=
  match x with
  | JNum n => Some n
  | JBool b => Some (NInt (if b then 1 else 0))
  | _ => None
  end.

(** [a * b], [a - b], [a + b] on numbers.  With an operand that is not a
    number Python raises [TypeError], except that a str or list is repeated
    by an [int] and concatenated with its like.  The model raises
    [TypeError] at the operation.  In [multiply_quaternions] every
    component formula subtracts, so a repeated str or list raises
    [TypeError] at the next operation of the formula; with
    [NINETY_DEG_X_ROTATION] as second argument, the only call of the
    script, the repetition count is the int [0] and the outcome is the
    same exception at the same place. *)
Definition py_arith (fz : Z -> Z -> Z) (ff : float -> float -> float)
    (a b : json) : M json :=
  match as_num a, as_num b with
  | Some x, Some y => n <- num_binop fz ff x y ;; ret (JNum n)
  | _, _ => raise TypeError
  end.

Definition py_mul : json -> json -> M json := py_arith Z.mul PrimFloat.mul.
Definition py_sub : json -> json -> M json := py_arith Z.sub PrimFloat.sub.
Definition py_add : json -> json -> M json := py_arith Z.add PrimFloat.add.

(** Exact comparison of a double with an integer; [None] for a NaN. *)
Definition float_cmp_Z (f : float) (z : Z) : option comparison :=
  match Prim2SF f with
  | S754_nan => None
  | S754_infinity s => Some (if s then Lt else Gt)
  | S754_zero _ => Some (0 ?= z)
  | S754_finite s m e =>
      let sm := if s then Z.neg m else Z.pos m in
      match e with
      | Z.neg p => Some (sm ?= z * 2 ^ Z.pos p)
      | _ => Some (sm * 2 ^ e ?= z)
      end
  end.

Definition num_cmp (a b : num) : option comparison :=
  match a, b with
  | NInt x, NInt y => Some (x ?= y)
  | NFloat x, NFloat y =>
      match PrimFloat.compare x y with
      | FEq => Some Eq
      | FLt => Some Lt
      | FGt => Some Gt
      | FNotComparable => None
      end
  | NFloat x, NInt y => float_cmp_Z x y
  | NInt x, NFloat y => option_map CompOpp (float_cmp_Z y x)
  end.

Definition num_ltb (a b : num) : bool :=
  match num_cmp a b with Some Lt => true | _ => false end.
Definition num_gtb (a b : num) : bool :=
  match num_cmp a b with Some Gt => true | _ => false end.

(** [min(a, b)] and [max(a, b)]: the first argument stays unless the second
    is strictly smaller (greater). *)
Definition py_min (a b : num) : num := if num_ltb b a then b else a.
Definition py_max (a b : num) : num := if num_gtb b a then b else a.

(** ** The script *)

(** Expressions are evaluated left to right: both operands, then the
    operation. *)
Definition item (q : json) (i : Z) : M json := py_getitem q (JInt i).
Definition lift2 (op : json -> json -> M json) (x y : M json) : M json :=
  a <- x ;; b <- y ;; op a b.

Declare Scope py_scope.
Delimit Scope py_scope with py.
Notation "q .[ i ]" := (item q i) (at level 1, left associativity,
  format "q .[ i ]") : py_scope.
Notation "x * y" := (lift2 py_mul x y) : py_scope.
Notation "x - y" := (lift2 py_sub x y) : py_scope.
Notation "x + y" := (lift2 py_add x y) : py_scope.

(** [NINETY_DEG_X_ROTATION = [math.sqrt(0.5), 0, 0, math.sqrt(0.5)]]: two
    doubles and two ints.  The nodes it is assigned to share the one list
    object; the script never mutates it ([multiply_quaternions] builds a
    new list), so it is modelled by its value. *)
Definition NINETY_DEG_X_ROTATION : json :=
  JArr [JFloat (PrimFloat.sqrt 0.5); JInt 0; JInt 0; JFloat (PrimFloat.sqrt 0.5)].

Definition multiply_quaternions (q1 q2 : json) : M json :=
  r0 <- (q1.[0]*q2.[0] - q1.[1]*q2.[1] - q1.[2]*q2.[2] - q1.[3]*q2.[3])%py ;;
  r1 <- (q1.[0]*q2.[1] + q1.[1]*q2.[0] + q1.[2]*q2.[3] - q1.[3]*q2.[2])%py ;;
  r2 <- (q1.[0]*q2.[2] - q1.[1]*q2.[3] + q1.[2]*q2.[0] + q1.[3]*q2.[1])%py ;;
  r3 <- (q1.[0]*q2.[3] + q1.[1]*q2.[2] - q1.[2]*q2.[1] + q1.[3]*q2.[0])%py ;;
  ret (JArr [r0; r1; r2; r3]).

(** [not gltf_data.get('scenes') or not gltf_data['scenes'][0].get('nodes')] *)
Definition no_valid_scene (gltf_data : json) : M bool :=
  s <- py_get gltf_data "scenes" ;;
  if negb (truthy s) then ret true
  else
    scenes <- py_getitem gltf_data (JStr "scenes") ;;
    scene0 <- py_getitem scenes (JInt 0) ;;
    n <- py_get scene0 "nodes" ;;
    ret (negb (truthy n)).

Definition reorient_scene (gltf_data : json) : M json :=
  skip <- no_valid_scene gltf_data ;;
  if skip : bool then
    log WARNING "No valid scene or nodes found in the glTF file." ;;;
    ret gltf_data
  else
    scenes <- py_getitem gltf_data (JStr "scenes") ;;
    scene <- py_getitem scenes (JInt 0) ;;
    scene_nodes <- py_getitem scene (JStr "nodes") ;;
    n <- py_len scene_nodes ;;
    if n =? 1 then
      nodes <- py_getitem gltf_data (JStr "nodes") ;;
      scene_nodes <- py_getitem scene (JStr "nodes") ;;
      idx <- py_getitem scene_nodes (JInt 0) ;;
      root_node <- py_getitem nodes idx ;;
      has_rotation <- py_contains "rotation" root_node ;;
      root_node' <-
        (if has_rotation : bool then
           log INFO "Applying rotation to existing root node." ;;;
           rotation <- py_getitem root_node (JStr "rotation") ;;
           q <- multiply_quaternions rotation NINETY_DEG_X_ROTATION ;;
           py_setitem root_node "rotation" q
         else
           py_setitem root_node "rotation" NINETY_DEG_X_ROTATION) ;;
      ret (store_item gltf_data (JStr "nodes") (store_item nodes idx root_node'))
    else
      log INFO "Creating new root node for reorientation." ;;;
      children <- py_getitem scene (JStr "nodes") ;;
      let new_root :=
        JObj [("name", JStr "ReorientedRoot");
              ("rotation", NINETY_DEG_X_ROTATION);
              ("children", children)] in
      nodes <- py_getitem gltf_data (JStr "nodes") ;;
      len_nodes <- py_len nodes ;;
      scene' <- py_setitem scene "nodes" (JArr [JInt len_nodes]) ;;
      let gltf_data' :=
        store_item gltf_data (JStr "scenes") (store_item scenes (JInt 0) scene') in
      nodes <- py_getitem gltf_data' (JStr "nodes") ;;
      nodes' <- py_append nodes new_root ;;
      ret (store_item gltf_data' (JStr "nodes") nodes').

(** [max(0, min(1, v))] *)
Definition clamp01 (v : num) : num := py_max (NInt 0) (py_min (NInt 1) v).

(** The body of the loop over the materials; the result is the mutated
    material. *)
Definition patch_material (metallic_factor roughness_factor : num)
    (override : bool) (material : json) : M json :=
  pm <- py_setdefault material "pbrMetallicRoughness" (JObj []) ;;
  let (pbr, material') := pm : json * json in
  has_metallic <- py_contains "metallicFactor" pbr ;;
  pbr <- (if negb has_metallic || override
          then py_setitem pbr "metallicFactor" (JNum (clamp01 metallic_factor))
          else ret pbr) ;;
  has_roughness <- py_contains "roughnessFactor" pbr ;;
  pbr <- (if negb has_roughness || override
          then py_setitem pbr "roughnessFactor" (JNum (clamp01 roughness_factor))
          else ret pbr) ;;
  ret (store_item material' (JStr "pbrMetallicRoughness") pbr).

(** [for x in l: body(x)], collecting the mutated items. *)
Fixpoint for_each (body : json -> M json) (l : list json) : M (list json) :=
  match l with
  | [] => ret []
  | x :: l' => x' <- body x ;; l'' <- for_each body l' ;; ret (x' :: l'')
  end.

(** The material stage of [modify_gltf].  The items of a list are the
    document's own objects; iterating a dict or a str visits fresh strings,
    which the document does not hold. *)
Definition modify_materials (metallic_factor roughness_factor : num)
    (override : bool) (gltf_data : json) : M json :=
  has_materials <- py_contains "materials" gltf_data ;;
  if has_materials : bool then
    log INFO "Modifying materials..." ;;;
    materials <- py_getitem gltf_data (JStr "materials") ;;
    items <- py_iter materials ;;
    items' <- for_each (patch_material metallic_factor roughness_factor override) items ;;
    match materials with
    | JArr _ => ret (store_item gltf_data (JStr "materials") (JArr items'))
    | _ => ret gltf_data
    end
  else
    log WARNING "No materials found in the glTF file." ;;;
    ret gltf_data.

(** [modify_gltf] between [json.load] and [json.dump]: the document read
    from the input file is the argument, the document written to the output
    file is the result.  Reading and writing the files, and the log records
    about them, are outside the model.  An exception raised in between
    leaves the function, and nothing is written. *)
Definition modify_gltf (gltf_data : json) (metallic_factor roughness_factor : num)
    (override reorient : bool) : M json :=
  gltf_data <- (if reorient then
                  log INFO "Reorienting scene..." ;;;
                  reorient_scene gltf_data
                else ret gltf_data) ;;
  modify_materials metallic_factor roughness_factor override gltf_data.

(** ** The Hamilton product as the specification writes it *)

(** Section 4.1 of the specification: quaternions are stored as
    [[x, y, z, w]], and the product is given by its four components.  This
    definition follows the specification's words, for comparison with
    [multiply_quaternions]. *)
Definition hamilton_xyzw (q1 q2 : json) : M json :=
  let x q := item q 0 in
  let y q := item q 1 in
  let z q := item q 2 in
  let w q := item q 3 in
  rw <- (w q1 * w q2 - x q1 * x q2 - y q1 * y q2 - z q1 * z q2)%py ;;
  rx <- (w q1 * x q2 + x q1 * w q2 + y q1 * z q2 - z q1 * y q2)%py ;;
  ry <- (w q1 * y q2 - x q1 * z q2 + y q1 * w q2 + z q1 * x q2)%py ;;
  rz <- (w q1 * z q2 + x q1 * y q2 - y q1 * x q2 + z q1 * w q2)%py ;;
  ret (JArr [rx; ry; rz; rw]).

(** The identity rotation, [[x, y, z, w] = [0, 0, 0, 1]]. *)
Definition identity_quaternion : json := JArr [JInt 0; JInt 0; JInt 0; JInt 1].

(** The rotation by 180 degrees about X, [[1, 0, 0, 0]]. *)
Definition half_turn_x : json := JArr [JInt 1; JInt 0; JInt 0; JInt 0].

(** ** Reading a document

    Accessors for the fields the specification names: the global node
    sequence, the node list of the first scene and the rotation of a
    node. *)

Definition doc_nodes (doc : json) : option (list json) :=
  match doc with
  | JObj d =>
      match dict_get "nodes" d with
      | Some (JArr ns) => Some ns
      | _ => None
      end
  | _ => None
  end.

Definition first_scene_nodes (doc : json) : option json :=
  match doc with
  | JObj d =>
      match dict_get "scenes" d with
      | Some (JArr (JObj sc :: _)) => dict_get "nodes" sc
      | _ => None
      end
  | _ => None
  end.

Definition node_rotation (doc : json) (i : Z) : option json :=
  match doc_nodes doc with
  | Some ns =>
      match list_index ns i with
      | Some (JObj nd) => dict_get "rotation" nd
      | _ => None
      end
  | None => None
  end.

(** The synthetic root of section 4.2, step 3 of the specification. *)
Definition reoriented_root (children : json) : json :=
  JObj [("name", JStr "ReorientedRoot");
        ("rotation", NINETY_DEG_X_ROTATION);
        ("children", children)].

(** The double nearest to a number. *)
Definition num_to_float (n : num) : float :=
  match n with
  | NInt z => SF2Prim (binary_normalize prec emax z 0 false)
  | NFloat f => f
  end.

Definition close_to (tol : float) (a b : json) : bool :=
  match a, b with
  | JNum x, JNum y =>
      PrimFloat.leb (PrimFloat.abs (num_to_float x - num_to_float y)) tol
  | _, _ => false
  end.

(** Two quaternions agree within [tol] on each of their four components. *)
Definition within_tolerance (tol : float) (q1 q2 : json) : bool :=
  match q1, q2 with
  | JArr [a1; b1; c1; d1], JArr [a2; b2; c2; d2] =>
      close_to tol a1 a2 && close_to tol b1 b2 &&
      close_to tol c1 c2 && close_to tol d1 d2
  | _, _ => false
  end.

(** The tolerance of the comparisons below, [2^-20]. *)
Definition tolerance : float := 0x1p-20.

(** ** Sample documents *)

(** One scene with one root, [nodes[0]], which carries [rotation]. *)
Definition single_root_doc (rotation : json) : json :=
  JObj [("asset", JObj [("version", JStr "2.0")]);
        ("scenes", JArr [JObj [("nodes", JArr [JInt 0])]]);
        ("nodes", JArr [JObj [("name", JStr "root"); ("rotation", rotation)]])].

(** One scene with one root, [nodes[0]], without a rotation. *)
Definition plain_root_doc : json :=
  JObj [("asset", JObj [("version", JStr "2.0")]);
        ("scenes", JArr [JObj [("nodes", JArr [JInt 0])]]);
        ("nodes", JArr [JObj [("name", JStr "root")]])].

(** A single root and no global node sequence. *)
Definition missing_nodes_doc : json :=
  JObj [("scenes", JArr [JObj [("nodes", JArr [JInt 0])]])].

(** Two roots and no global node sequence. *)
Definition missing_nodes_multi_doc : json :=
  JObj [("scenes", JArr [JObj [("nodes", JArr [JInt 0; JInt 1])]])].

(** A single root whose index, 3, is not a position of the one-element
    node sequence. *)
Definition bad_index_doc : json :=
  JObj [("scenes", JArr [JObj [("nodes", JArr [JInt 3])]]);
        ("nodes", JArr [JObj [("name", JStr "root")]])].

(** ** The material policy as the specification writes it (section 4.3) *)

(** The substructure a material starts from: the empty one when the field
    is absent; [None] when the field holds something that is not an
    object. *)
Definition existing_pbr (fields : dict) : option dict :=
  match dict_get "pbrMetallicRoughness" fields with
  | None => Some []
  | Some (JObj p) => Some p
  | Some _ => None
  end.

Definition material_ok (material : json) : bool :=
  match material with
  | JObj fields =>
      match existing_pbr fields with Some _ => true | None => false end
  | _ => false
  end.

(** "Set the factor to clamp(v, 0, 1) if the field is absent or override is
    true; otherwise leave the existing value untouched." *)
Definition factor_after (k : string) (v : num) (override : bool) (pbr : dict) : json :=
  match dict_get k pbr with
  | None => JNum (clamp01 v)
  | Some old => if override then JNum (clamp01 v) else old
  end.

(** A material after the patch: the substructure exists, the two factors
    follow the policy, and every other field of the substructure and of the
    material is as before. *)
Definition patched (metallic roughness : num) (override : bool)
    (material material' : json) : Prop :=
  exists fields pbr pbr',
    material = JObj fields /\
    existing_pbr fields = Some pbr /\
    material' = JObj (dict_set "pbrMetallicRoughness" (JObj pbr') fields) /\
    dict_get "metallicFactor" pbr'
      = Some (factor_after "metallicFactor" metallic override pbr) /\
    dict_get "roughnessFactor" pbr'
      = Some (factor_after "roughnessFactor" roughness override pbr) /\
    (forall k, k <> "metallicFactor" -> k <> "roughnessFactor" ->
       dict_get k pbr' = dict_get k pbr).

(** The two conditional assignments of the loop body, as a function on the
    substructure. *)
Definition set_factor (k : string) (v : num) (override : bool) (pbr : dict) : dict :=
  match dict_get k pbr with
  | Some _ => if override then dict_set k (JNum (clamp01 v)) pbr else pbr
  | None => dict_set k (JNum (clamp01 v)) pbr
  end.

(** ** What the two stages may change (structural preservation)

    The relations below state, field by field, what a document after the
    run may differ in from the document before: the node list of the first
    scene, the global node sequence (one node appended, or the rotation of
    one node), and the two factors of each material.  Everything else is
    equal, and a field holds a whole subtree, so equality of a field is
    equality at every level below it. *)

Definition same_fields_except (ks : list string) (o o' : dict) : Prop :=
  forall k, ~ In k ks -> dict_get k o' = dict_get k o.

Definition scenes_frame (o o' : option json) : Prop :=
  o' = o \/
  exists sc sc' rest,
    o = Some (JArr (JObj sc :: rest)) /\
    o' = Some (JArr (JObj sc' :: rest)) /\
    map fst sc' = map fst sc /\
    same_fields_except ["nodes"] sc sc'.

Definition node_frame (n n' : json) : Prop :=
  exists nd nd',
    n = JObj nd /\ n' = JObj nd' /\ same_fields_except ["rotation"] nd nd'.

Definition nodes_frame (o o' : option json) : Prop :=
  o' = o \/
  (exists ns new, o = Some (JArr ns) /\ o' = Some (JArr (ns ++ [new]))) \/
  (exists ns p n n',
     o = Some (JArr ns) /\ nth_error ns p = Some n /\
     o' = Some (JArr (list_update ns p n')) /\ node_frame n n') \/
  (exists nm k n n',
     o = Some (JObj nm) /\ dict_get k nm = Some n /\
     o' = Some (JObj (dict_set k n' nm)) /\ node_frame n n').

Definition material_frame (m m' : json) : Prop :=
  m' = m \/
  exists fields pbr pbr',
    m = JObj fields /\
    existing_pbr fields = Some pbr /\
    m' = JObj (dict_set "pbrMetallicRoughness" (JObj pbr') fields) /\
    same_fields_except ["metallicFactor"; "roughnessFactor"] pbr pbr'.

Definition materials_frame (o o' : option json) : Prop :=
  o' = o \/
  exists ms ms',
    o = Some (JArr ms) /\ o' = Some (JArr ms') /\ Forall2 material_frame ms ms'.

Definition frame (doc doc' : json) : Prop :=
  doc' = doc \/
  exists d d',
    doc = JObj d /\ doc' = JObj d' /\
    map fst d' = map fst d /\
    same_fields_except ["scenes"; "nodes"; "materials"] d d' /\
    scenes_frame (dict_get "scenes" d) (dict_get "scenes" d') /\
    nodes_frame (dict_get "nodes" d) (dict_get "nodes" d') /\
    materials_frame (dict_get "materials" d) (dict_get "materials" d').

(** ** Well-formed input

    The part of the glTF 2.0 schema that the script relies on: [nodes] is a
    list of objects whose [rotation], when present, is a list of four
    numbers (an integer must be in the range of a double); [scenes] is a
    list of objects whose [nodes], when present, is a list of indices into
    the global node sequence; [materials] is a list of objects whose
    [pbrMetallicRoughness], when present, is an object. *)

Definition finite_number (x : json) : bool :=
  match x with
  | JNum (NFloat _) => true
  | JNum (NInt z) => match float_of_Z z with (Ok _, _) => true | _ => false end
  | _ => false
  end.

Definition quaternion_ok (q : json) : bool :=
  match q with
  | JArr [a; b; c; d] =>
      finite_number a && finite_number b && finite_number c && finite_number d
  | _ => false
  end.

Definition node_ok (n : json) : bool :=
  match n with
  | JObj nd =>
      match dict_get "rotation" nd with
      | None => true
      | Some q => quaternion_ok q
      end
  | _ => false
  end.

Definition node_index_ok (len : nat) (t : json) : bool :=
  match t with
  | JNum (NInt i) => (0 <=? i) && (i <? Z.of_nat len)
  | _ => false
  end.

Definition scene_ok (len : nat) (s : json) : bool :=
  match s with
  | JObj sc =>
      match dict_get "nodes" sc with
      | None => true
      | Some (JArr tops) => forallb (node_index_ok len) tops
      | Some _ => false
      end
  | _ => false
  end.

(** The global node sequence of a document, empty when the key is absent;
    [None] when the key holds something that is not a list. *)
Definition node_sequence (d : dict) : option (list json) :=
  match dict_get "nodes" d with
  | None => Some []
  | Some (JArr ns) => Some ns
  | Some _ => None
  end.

Definition scenes_ok (d : dict) (ns : list json) : bool :=
  match dict_get "scenes" d with
  | None => true
  | Some (JArr scs) => forallb (scene_ok (List.length ns)) scs
  | Some _ => false
  end.

Definition materials_ok (d : dict) : bool :=
  match dict_get "materials" d with
  | None => true
  | Some (JArr ms) => forallb material_ok ms
  | Some _ => false
  end.

Definition well_formed (doc : json) : bool :=
  match doc with
  | JObj d =>
      match node_sequence d with
      | Some ns => forallb node_ok ns && scenes_ok d ns && materials_ok d
      | None => false
      end
  | _ => false
  end.

(** The structural absences of section 7 of the specification, for the
    scene stage: no scene list, no first scene, or a first scene without
    nodes. *)
Definition no_scene_to_reorient (d : dict) : Prop :=
  dict_get "scenes" d = None \/
  dict_get "scenes" d = Some (JArr []) \/
  exists sc rest,
    dict_get "scenes" d = Some (JArr (JObj sc :: rest)) /\
    (dict_get "nodes" sc = None \/ dict_get "nodes" sc = Some (JArr [])).

(** A document with two roots, two materials and fields the script does
    not know, and the document the run returns for it with
    [metallic = 0.25], [roughness = 5], no override, and [reorient]. *)
Definition sample_doc : json :=
  JObj [("asset", JObj [("version", JStr "2.0")]);
        ("scene", JInt 0);
        ("scenes",
         JArr [JObj [("name", JStr "Scene"); ("nodes", JArr [JInt 0; JInt 1])]]);
        ("nodes", JArr [JObj [("mesh", JInt 0)]; JObj [("mesh", JInt 1)]]);
        ("materials",
         JArr [JObj [("name", JStr "bare")];
               JObj [("name", JStr "metal");
                     ("pbrMetallicRoughness",
                      JObj [("baseColorFactor",
                             JArr [JInt 1; JInt 0; JInt 0; JInt 1]);
                            ("metallicFactor", JFloat 0.75)])]]);
        ("extras", JObj [("note", JStr "kept")])].

Definition sample_doc_after : json :=
  JObj [("asset", JObj [("version", JStr "2.0")]);
        ("scene", JInt 0);
        ("scenes",
         JArr [JObj [("name", JStr "Scene"); ("nodes", JArr [JInt 2])]]);
        ("nodes",
         JArr [JObj [("mesh", JInt 0)]; JObj [("mesh", JInt 1)];
               JObj [("name", JStr "ReorientedRoot");
                     ("rotation", NINETY_DEG_X_ROTATION);
                     ("children", JArr [JInt 0; JInt 1])]]);
        ("materials",
         JArr [JObj [("name", JStr "bare");
                     ("pbrMetallicRoughness",
                      JObj [("metallicFactor", JFloat 0.25);
                            ("roughnessFactor", JInt 1)])];
               JObj [("name", JStr "metal");
                     ("pbrMetallicRoughness",
                      JObj [("baseColorFactor",
                             JArr [JInt 1; JInt 0; JInt 0; JInt 1]);
                            ("metallicFactor", JFloat 0.75);
                            ("roughnessFactor", JInt 1)])]]);
        ("extras", JObj [("note", JStr "kept")])].

(** ** Further vocabulary for statements about the script *)

(** A list of Python ints. *)
Definition ints (zs : list Z) : json := JArr (map (fun z => JInt z) zs).

(** A field of a document that is an object. *)
Definition doc_field (k : string) (doc : json) : option json :=
  match doc with
  | JObj d => dict_get k d
  | _ => None
  end.

(** A material that carries both factors already. *)
Definition has_both_factors (material : json) : bool :=
  match material with
  | JObj fields =>
      match dict_get "pbrMetallicRoughness" fields with
      | Some (JObj pbr) =>
          match dict_get "metallicFactor" pbr, dict_get "roughnessFactor" pbr with
          | Some _, Some _ => true
          | _, _ => false
          end
      | _ => false
      end
  | _ => false
  end.

(** [sample_doc] after the scene stage alone, and after the material stage
    alone (same factors, no override). *)
Definition sample_doc_reoriented : json :=
  JObj [("asset", JObj [("version", JStr "2.0")]);
        ("scene", JInt 0);
        ("scenes",
         JArr [JObj [("name", JStr "Scene"); ("nodes", JArr [JInt 2])]]);
        ("nodes",
         JArr [JObj [("mesh", JInt 0)]; JObj [("mesh", JInt 1)];
               JObj [("name", JStr "ReorientedRoot");
                     ("rotation", NINETY_DEG_X_ROTATION);
                     ("children", JArr [JInt 0; JInt 1])]]);
        ("materials",
         JArr [JObj [("name", JStr "bare")];
               JObj [("name", JStr "metal");
                     ("pbrMetallicRoughness",
                      JObj [("baseColorFactor",
                             JArr [JInt 1; JInt 0; JInt 0; JInt 1]);
                            ("metallicFactor", JFloat 0.75)])]]);
        ("extras", JObj [("note", JStr "kept")])].

Definition sample_doc_patched : json :=
  JObj [("asset", JObj [("version", JStr "2.0")]);
        ("scene", JInt 0);
        ("scenes",
         JArr [JObj [("name", JStr "Scene"); ("nodes", JArr [JInt 0; JInt 1])]]);
        ("nodes", JArr [JObj [("mesh", JInt 0)]; JObj [("mesh", JInt 1)]]);
        ("materials",
         JArr [JObj [("name", JStr "bare");
                     ("pbrMetallicRoughness",
                      JObj [("metallicFactor", JFloat 0.25);
                            ("roughnessFactor", JInt 1)])];
               JObj [("name", JStr "metal");
                     ("pbrMetallicRoughness",
                      JObj [("baseColorFactor",
                             JArr [JInt 1; JInt 0; JInt 0; JInt 1]);
                            ("metallicFactor", JFloat 0.75);
                            ("roughnessFactor", JInt 1)])]]);
        ("extras", JObj [("note", JStr "kept")])].

(** * The header generator of [doc/png_to_h.py]

    [png_to_h] reads the bytes of a file, builds the text of a C header
    and writes it.  The model takes the bytes that [f.read()] returns and
    gives the text that is passed to [h.write]; the two file operations
    are outside of it.

    ** Python [str] and [range] *)

Module Py.
Local Open Scope nat_scope.

(** ["\n"] *)
Definition nl : string := String (ascii_of_nat 10) EmptyString.

(** [s[:-k]] for [k > 0]. *)
Definition drop_last (k : nat) (s : string) : string :=
  substring 0 (String.length s - k) s.

(** [s.endswith(t)] *)
Definition endswith (s t : string) : bool :=
  (String.length t <=? String.length s)
  && String.eqb (substring (String.length s - String.length t) (String.length t) s) t.

(** [sep.join(l)] *)
Fixpoint join (sep : string) (l : list string) : string :=
  match l with
  | [] => ""
  | x :: l' =>
      match l' with
      | [] => x
      | _ :: _ => (x ++ sep ++ join sep l')%string
      end
  end.

(** [str(n)] for a natural number. *)
Definition str_of_nat (n : nat) : string := DecimalString.NilEmpty.string_of_uint (Nat.to_uint n).

(** [range(i, j)] and [range(0, n, step)]. *)
Definition range (i j : nat) : list nat := seq i (j - i).
Definition range_step (n step : nat) : list nat :=
  map (fun k => k * step) (seq 0 ((n + step - 1) / step)).

End Py.

Module PngToH.
Local Open Scope nat_scope.

Definition hex_digit (n : nat) : ascii :=
  match String.get n "0123456789abcdef" with
  | Some c => c
  | None => "0"%char
  end.

(** [f"0x{b:02x}"] *)
Definition hex_token (b : Byte.byte) : string :=
  let n := Byte.to_nat b in
  ("0x" ++ String (hex_digit (n / 16)) (String (hex_digit (n mod 16)) EmptyString))%string.

Definition row (png_data : list Byte.byte) (i : nat) : string :=
  ("    "
   ++ Py.join ", " (map (fun j => hex_token (nth j png_data Byte.x00))
                      (Py.range i (Nat.min (i + 19) (List.length png_data))))
   ++ "," ++ Py.nl)%string.

Definition png_to_h (png_data : list Byte.byte) (header_file : string) : string :=
  let header_content :=
    ("unsigned char " ++ Py.drop_last 2 header_file ++ "[] = {" ++ Py.nl)%string in
  let header_content :=
    fold_left (fun acc i => (acc ++ row png_data i)%string)
      (Py.range_step (List.length png_data) 19) header_content in
  let header_content := (header_content ++ "};" ++ Py.nl)%string in
  (header_content ++ "unsigned int " ++ Py.drop_last 2 header_file ++ "_len = "
    ++ Py.str_of_nat (List.length png_data) ++ ";" ++ Py.nl)%string.

(** Vocabulary of the statements: the slice [png_data[i:i+19]], and a
    reader that collects the constants [0xhh] of a text in order, the way
    a C compiler reads the initialiser. *)
Definition row_bytes (png_data : list Byte.byte) (i : nat) : list Byte.byte :=
  firstn 19 (skipn i png_data).

Definition unhex (c : ascii) : option nat :=
  String.index 0 (String c EmptyString) "0123456789abcdef".

Fixpoint hex_bytes (s : string) : list Byte.byte :=
  match s with
  | EmptyString => []
  | String c s1 =>
      if Ascii.eqb c "0" then
        match s1 with
        | String x (String h (String l rest)) =>
            if Ascii.eqb x "x" then
              match unhex h, unhex l with
              | Some a, Some b =>
                  match Byte.of_nat (16 * a + b) with
                  | Some v => v :: hex_bytes rest
                  | None => hex_bytes s1
                  end
              | _, _ => hex_bytes s1
              end
            else hex_bytes s1
        | _ => hex_bytes s1
        end
      else hex_bytes s1
  end.

End PngToH.

(** * The converter of [utils/3dscene-to-gltf.py]

    The functions that look for Blender, the dialog and the command line
    parser work on the file system and the window system and are not
    modelled.  The model covers the choice of the export format, the
    command line that [run_blender] builds and the way the script of
    [build_blender_script] reads it back. *)

Module SceneToGltf.

(** The result of a call that may raise [ValueError] or [SystemExit]. *)
Inductive result (A : Type) : Type :=
| Returned (a : A)
| ValueError (msg : string)
| SystemExit (msg : string).
Arguments Returned {A} a.
Arguments ValueError {A} msg.
Arguments SystemExit {A} msg.

(** [format_arg == s], where [format_arg] may be [None]. *)
Definition is_str (v : option string) (s : string) : bool :=
  match v with
  | Some t => String.eqb t s
  | None => false
  end.

(** [infer_export_format(output_path, format_arg, embed)]; [suffix] is
    the value of [output_path.suffix.lower()]. *)
Definition infer_export_format (suffix : string) (format_arg : option string)
    (embed : bool) : result string :=
  if embed && is_str format_arg "glb" then
    ValueError "--embed cannot be used with --format glb"
  else if is_str format_arg "glb" then Returned "GLB"
  else if is_str format_arg "gltf" then
    Returned (if embed then "GLTF_EMBEDDED" else "GLTF_SEPARATE")
  else if String.eqb suffix ".glb" then Returned "GLB"
  else if String.eqb suffix ".gltf" then
    Returned (if embed then "GLTF_EMBEDDED" else "GLTF_SEPARATE")
  else ValueError "Output file must end with .gltf or .glb, or pass --format.".

(** The list [command] of [run_blender].  The paths are given by their
    [str]; [textures_dir] may be [None]. *)
Definition flag (b : bool) : string := if b then "1" else "0".

Definition or_empty (v : option string) : string :=
  match v with
  | Some s => s
  | None => ""
  end.

Definition command (blender_bin script_path input_path output_path export_format : string)
    (apply_transform y_up : bool) (textures_dir : option string) : list string :=
  [ blender_bin; "--background"; "--factory-startup"; "--python"; script_path; "--";
    input_path; output_path; export_format; flag apply_transform; flag y_up;
    or_empty textures_dir ].

(** The first statements of the script of [build_blender_script], which
    Blender runs with [sys.argv] set to its own command line.
    [list.index] raises [ValueError] when the item is absent. *)
Record script_args : Type := {
  arg_input_path : string;
  arg_output_path : string;
  arg_export_format : string;
  arg_apply_transform : bool;
  arg_y_up : bool;
  arg_textures_dir : string
}.

Fixpoint index (x : string) (l : list string) : option nat :=
  match l with
  | [] => None
  | y :: l' => if String.eqb y x then Some 0%nat else option_map S (index x l')
  end.

Definition read_argv (argv : list string) : result script_args :=
  match index "--" argv with
  | None => ValueError "'--' is not in list"
  | Some i =>
      let argv := skipn (i + 1) argv in
      match argv with
      | [input_path; output_path; export_format; apply_transform; y_up; textures_dir] =>
          Returned {| arg_input_path := input_path;
                      arg_output_path := output_path;
                      arg_export_format := export_format;
                      arg_apply_transform := String.eqb apply_transform "1";
                      arg_y_up := String.eqb y_up "1";
                      arg_textures_dir := textures_dir |}
      | _ =>
          SystemExit "Expected args: <input_path> <output_path> <export_format> <apply_transform> <y_up> <textures_dir>"
      end
  end.

End SceneToGltf.

(** * The test driver of [test.py]

    [test] lists the test directory, runs every executable twice and exits
    with a return code.  The model takes what the operating system
    answers as parameters: the separator of [os.path.join], the answers
    of [os.path.isfile], the listing of the directory, what
    [subprocess.run(args, check=True)] does for an argument list, and
    whether [print_log_result] returns after the process of an argument
    list.  It gives the
    argument lists passed to [subprocess.run], in order, and the way
    [test] ends; what is printed is left out, and the test directory is
    taken to be entered and listed without an exception. *)

Module TestPy.

(** [subprocess.run(args, check=True)]: the process ends with a return
    code, which makes [CalledProcessError] when it is not zero; or no
    process runs and another exception is raised, [OSError] for a file
    that cannot be executed. *)
Inductive run_result : Type :=
| Exited (code : Z)
| NotStarted.

Record state : Type := {
  calls : list (list string);
  returncode : Z
}.

(** A loop that goes on with a state, or that an exception has left. *)
Inductive progress : Type :=
| Goes (st : state)
| Stops (st : state).

(** [test] returns, exits through [sys.exit(returncode)], or is left by an
    exception that the loop does not catch: the executables that follow
    are not run, and the working directory is not set back. *)
Inductive ending : Type :=
| Returns
| Exits (code : Z)
| Raises.

Section Test.

Variable sep : string.
Variable isfile : string -> bool.
Variable run : list string -> run_result.
Variable print_log_result : list string -> string -> bool.

Definition test_arguments : list (list string) :=
  [["-test-frames"; "100"]; ["-test-frames"; "5"; "-sky"; "-raster"]].

Definition names_to_avoid : list string := [].

(** [name in executable] on [str]. *)
Fixpoint str_contains (name executable : string) : bool :=
  String.prefix name executable
  || match executable with
     | EmptyString => false
     | String _ rest => str_contains name rest
     end.

(** [os.path.join(".", f)] for a directory entry [f]. *)
Definition join_dot (f : string) : string := ("." ++ sep ++ f)%string.

Definition executables (listing : list string) : list string :=
  filter (fun f => isfile (join_dot f) && (Py.endswith f ".exe" || Py.endswith f "_app"))
    listing.

Definition screenShotName (executable : string) (counter : nat) : string :=
  ("snap_" ++ Py.drop_last 4 executable ++ "_" ++ Py.str_of_nat counter ++ ".jpg")%string.

Definition log_file (executable : string) : string :=
  ("log_" ++ Py.drop_last 4 executable ++ ".txt")%string.

(** The loop over [test_arguments]: [args] and [counter] are carried from
    one round to the next.  The [try] catches [CalledProcessError] only,
    and [print_log_result] is called inside it, after a process that
    returned 0. *)
Fixpoint for_arguments (executable : string) (l : list (list string))
    (args : list string) (counter : nat) (st : state) : progress :=
  match l with
  | [] => Goes st
  | arguments :: l' =>
      let args := args ++ ["-test"] in
      let args := args ++ arguments in
      let args := args ++ ["-screenshot"; screenShotName executable counter] in
      let counter := (counter + 1)%nat in
      let st := {| calls := calls st ++ [args]; returncode := returncode st |} in
      match run args with
      | NotStarted => Stops st
      | Exited code =>
          if code =? 0 then
            if print_log_result args (log_file executable)
            then for_arguments executable l' args counter st
            else Stops st
          else
            for_arguments executable l' args counter
              {| calls := calls st; returncode := code |}
      end
  end.

Fixpoint for_executables (l : list string) (st : state) : progress :=
  match l with
  | [] => Goes st
  | executable :: l' =>
      let executable_path := join_dot executable in
      let args := [executable_path] in
      let p :=
        if negb (existsb (fun name => str_contains name executable) names_to_avoid)
        then for_arguments executable test_arguments args 1%nat st
        else Goes st in
      match p with
      | Goes st => for_executables l' st
      | Stops st => Stops st
      end
  end.

Definition test (test_dir_exists : bool) (listing : list string)
  : list (list string) * ending :=
  if negb test_dir_exists then ([], Returns)
  else
    match for_executables (executables listing) {| calls := []; returncode := 0 |} with
    | Stops st => (calls st, Raises)
    | Goes st =>
        (calls st, if negb (returncode st =? 0) then Exits (returncode st) else Returns)
    end.

(** Vocabulary of the statements: the two argument lists of an
    executable; whether a call is left by an exception that is not
    caught; the return code of a call; the last return code that is not
    zero. *)
Definition first_call (executable : string) : list string :=
  [join_dot executable; "-test"; "-test-frames"; "100";
   "-screenshot"; screenShotName executable 1%nat].

Definition second_call (executable : string) : list string :=
  first_call executable
  ++ ["-test"; "-test-frames"; "5"; "-sky"; "-raster";
      "-screenshot"; screenShotName executable 2%nat].

Definition all_calls (l : list string) : list (list string) :=
  flat_map (fun e => [first_call e; second_call e]) l.

Definition uncaught (executable : string) (args : list string) : bool :=
  match run args with
  | NotStarted => true
  | Exited code => (code =? 0) && negb (print_log_result args (log_file executable))
  end.

Definition no_uncaught (l : list string) : Prop :=
  forall e, In e l -> uncaught e (first_call e) = false /\ uncaught e (second_call e) = false.

Definition code_of (args : list string) : Z :=
  match run args with
  | Exited code => code
  | NotStarted => 0
  end.

Definition keep_failure (acc code : Z) : Z := if code =? 0 then acc else code.

Definition last_failure (codes : list Z) : Z := fold_left keep_failure codes 0.

End Test.
End TestPy.

(** ** The clamp and the material policy, read from the specification

    "clamp(v, 0, 1) = max(0, min(1, v))", read by the order of the
    numbers: [0] for a number that is at most 0, [1] for a number that is
    at least 1, and the number itself strictly between them.  A NaN, which
    is in no order with 0, gives [1]. *)
Definition unit_clamp (v : num) : num :=
  match num_cmp v (NInt 0) with
  | Some Lt | Some Eq => NInt 0
  | Some Gt =>
      match num_cmp v (NInt 1) with
      | Some Lt => v
      | _ => NInt 1
      end
  | None => NInt 1
  end.

(** "Set the factor to clamp(v, 0, 1) if the field is absent or override is
    true; otherwise leave the existing value untouched", with the clamp
    above. *)
Definition specified_factor (k : string) (v : num) (override : bool) (pbr : dict)
  : json :=
  match dict_get k pbr with
  | None => JNum (unit_clamp v)
  | Some old => if override then JNum (unit_clamp v) else old
  end.

(** A material before and after the patch of section 4.3: the substructure
    exists (it starts empty when the material had none), the two factors
    are the specified ones, and every other field of the substructure and
    of the material is as before. *)
Definition patched_as_specified (metallic roughness : num) (override : bool)
    (material material' : json) : Prop :=
  exists fields pbr pbr',
    material = JObj fields /\
    existing_pbr fields = Some pbr /\
    material' = JObj (dict_set "pbrMetallicRoughness" (JObj pbr') fields) /\
    dict_get "metallicFactor" pbr'
      = Some (specified_factor "metallicFactor" metallic override pbr) /\
    dict_get "roughnessFactor" pbr'
      = Some (specified_factor "roughnessFactor" roughness override pbr) /\
    (forall k, k <> "metallicFactor" -> k <> "roughnessFactor" ->
       dict_get k pbr' = dict_get k pbr).

(** ** The shape of a document without the bound on indices

    The JSON schema of glTF 2.0 gives an index as an integer that is not
    negative; that it is below the length of the sequence it points into
    is a requirement the schema does not express.  [schema_shaped] is
    [well_formed] without that bound. *)
Definition index_shaped (t : json) : bool :=
  match t with
  | JNum (NInt i) => 0 <=? i
  | _ => false
  end.

Definition scene_shaped (s : json) : bool :=
  match s with
  | JObj sc =>
      match dict_get "nodes" sc with
      | None => true
      | Some (JArr tops) => forallb index_shaped tops
      | Some _ => false
      end
  | _ => false
  end.

Definition scenes_shaped (d : dict) : bool :=
  match dict_get "scenes" d with
  | None => true
  | Some (JArr scs) => forallb scene_shaped scs
  | Some _ => false
  end.

Definition schema_shaped (doc : json) : bool :=
  match doc with
  | JObj d =>
      match node_sequence d with
      | Some ns => forallb node_ok ns && scenes_shaped d && materials_ok d
      | None => false
      end
  | _ => false
  end.

(** Two roots, 5 and 7, over a node sequence of one node; and a single
    root given as [-1]. *)
Definition dangling_roots_doc : json :=
  JObj [("scenes", JArr [JObj [("nodes", JArr [JInt 5; JInt 7])]]);
        ("nodes", JArr [JObj [("name", JStr "root")]])].

Definition negative_root_doc : json :=
  JObj [("scenes", JArr [JObj [("nodes", JArr [JInt (-1)])]]);
        ("nodes", JArr [JObj [("name", JStr "root")]])].

(** Documents with a structural absence: no scene list and no material
    list; an empty scene list and one material. *)
Definition bare_doc : json :=
  JObj [("asset", JObj [("version", JStr "2.0")])].

Definition no_scene_doc : json :=
  JObj [("scenes", JArr []);
        ("materials", JArr [JObj [("name", JStr "bare")]])].

(** ** Properties of the primitives *)

Lemma bind_ret_l {A B} (a : A) (k : A -> M B) : bind (ret a) k = k a.
Proof. unfold bind, ret. destruct (k a); reflexivity. Qed.

Lemma bind_raise {A B} (e : exn) (k : A -> M B) : bind (raise e) k = raise e.
Proof. reflexivity. Qed.

Lemma bind_Ok {A B} (a : A) (w : list log_record) (k : A -> M B) :
  bind (Ok a, w) k = (fst (k a), w ++ snd (k a)).
Proof. unfold bind. destruct (k a); reflexivity. Qed.

Lemma bind_Ok_inv {A B} (m : M A) (k : A -> M B) (b : B) (w : list log_record) :
  bind m k = (Ok b, w) ->
  exists a w1 w2, m = (Ok a, w1) /\ k a = (Ok b, w2) /\ w = w1 ++ w2.
Proof.
  unfold bind. destruct m as [[a | e] w1]; [| discriminate].
  destruct (k a) as [r w2] eqn:Hk. intros H. inversion H; subst.
  exists a, w1, w2. auto.
Qed.

Lemma dict_get_set_eq (k : string) (v : json) (d : dict) :
  dict_get k (dict_set k v d) = Some v.
Proof.
  induction d as [| [k' v'] d IH]; simpl.
  - rewrite String.eqb_refl. reflexivity.
  - destruct (String.eqb k k') eqn:E; simpl; rewrite E; auto.
Qed.

Lemma dict_get_set_ne (k k' : string) (v : json) (d : dict) :
  k' <> k -> dict_get k' (dict_set k v d) = dict_get k' d.
Proof.
  intros Hne. induction d as [| [k0 v0] d IH]; simpl.
  - destruct (String.eqb k' k) eqn:E; [| reflexivity].
    apply String.eqb_eq in E. contradiction.
  - destruct (String.eqb k k0) eqn:E; simpl.
    + apply String.eqb_eq in E; subst k0.
      destruct (String.eqb k' k) eqn:E'; [| reflexivity].
      apply String.eqb_eq in E'. contradiction.
    + rewrite IH. reflexivity.
Qed.

(** Assigning to a key that is present keeps the keys and their order. *)
Lemma dict_set_keys (k : string) (v v0 : json) (d : dict) :
  dict_get k d = Some v0 -> map fst (dict_set k v d) = map fst d.
Proof.
  induction d as [| [k' v'] d IH]; simpl; [discriminate |].
  destruct (String.eqb k k') eqn:E; simpl; intros H.
  - reflexivity.
  - rewrite IH by assumption. reflexivity.
Qed.

Lemma dict_set_same (k : string) (v : json) (d : dict) :
  dict_get k d = Some v -> dict_set k v d = d.
Proof.
  induction d as [| [k' v'] d IH]; simpl; [discriminate |].
  destruct (String.eqb k k') eqn:E; intros H.
  - inversion H; reflexivity.
  - rewrite IH by assumption. reflexivity.
Qed.

Lemma norm_index_lt (n : nat) (i : Z) (p : nat) :
  norm_index n i = Some p -> (p < n)%nat.
Proof.
  unfold norm_index.
  destruct (i <? 0) eqn:Hi;
    match goal with |- context [if ?c then _ else _] => destruct c eqn:Hc end;
    try discriminate; intros H; inversion H; subst;
    apply andb_true_iff in Hc; destruct Hc as [H0 H1];
    apply Z.leb_le in H0; apply Z.ltb_lt in H1; lia.
Qed.

Lemma norm_index_nonneg (n : nat) (i : Z) :
  0 <= i < Z.of_nat n -> norm_index n i = Some (Z.to_nat i).
Proof.
  intros [H0 H1]. unfold norm_index.
  destruct (i <? 0) eqn:Hi; [apply Z.ltb_lt in Hi; lia |].
  apply Z.leb_le in H0. apply Z.ltb_lt in H1. rewrite H0, H1. reflexivity.
Qed.

Lemma list_update_length {A} (l : list A) (p : nat) (v : A) :
  List.length (list_update l p v) = List.length l.
Proof.
  revert p; induction l as [| x l IH]; intros [| p]; simpl; auto.
Qed.

Lemma nth_error_list_update_eq {A} (l : list A) (p : nat) (v : A) :
  (p < List.length l)%nat -> nth_error (list_update l p v) p = Some v.
Proof.
  revert p; induction l as [| x l IH]; intros [| p]; simpl; intros H;
    try lia; auto.
  apply IH. lia.
Qed.

Lemma nth_error_list_update_ne {A} (l : list A) (p p' : nat) (v : A) :
  p' <> p -> nth_error (list_update l p v) p' = nth_error l p'.
Proof.
  revert p p'; induction l as [| x l IH]; intros [| p] [| p'] H; simpl;
    try reflexivity; try contradiction.
  apply IH. congruence.
Qed.

(** ** The quaternion product *)

Lemma item_0 (a b c d : json) : item (JArr [a; b; c; d]) 0 = ret a.
Proof. reflexivity. Qed.
Lemma item_1 (a b c d : json) : item (JArr [a; b; c; d]) 1 = ret b.
Proof. reflexivity. Qed.
Lemma item_2 (a b c d : json) : item (JArr [a; b; c; d]) 2 = ret c.
Proof. reflexivity. Qed.
Lemma item_3 (a b c d : json) : item (JArr [a; b; c; d]) 3 = ret d.
Proof. reflexivity. Qed.

Lemma lift2_ret (op : json -> json -> M json) (a b : json) :
  lift2 op (ret a) (ret b) = op a b.
Proof. unfold lift2. rewrite !bind_ret_l. reflexivity. Qed.

(** What the code computes: the Hamilton product of quaternions stored
    scalar first, as [[w, x, y, z]].  On any two 4-element lists the result
    of [multiply_quaternions] is the result of the specification's formula
    on the lists rotated to [[x, y, z, w]], rotated back. *)
Lemma multiply_quaternions_scalar_first (w1 x1 y1 z1 w2 x2 y2 z2 : json) :
  multiply_quaternions (JArr [w1; x1; y1; z1]) (JArr [w2; x2; y2; z2]) =
  (q <- hamilton_xyzw (JArr [x1; y1; z1; w1]) (JArr [x2; y2; z2; w2]) ;;
   match q with
   | JArr [x; y; z; w] => ret (JArr [w; x; y; z])
   | _ => ret q
   end).
Proof.
  unfold multiply_quaternions, hamilton_xyzw.
  rewrite !item_0, !item_1, !item_2, !item_3.
  repeat match goal with
  | |- context [bind ?m _] =>
      lazymatch m with
      | lift2 _ _ _ => destruct m as [[? | ?] ?]; cbn [bind]
      end
  end;
  cbn; rewrite ?app_nil_r; reflexivity.
Qed.

(** On integer components, composing with [[0, 0, 0, 1]] on the right
    permutes and negates the components instead of returning them. *)
Lemma multiply_quaternions_identity_r_int (a b c d : Z) :
  multiply_quaternions (JArr [JInt a; JInt b; JInt c; JInt d]) identity_quaternion =
  ret (JArr [JInt (- d); JInt c; JInt (- b); JInt a]).
Proof.
  unfold multiply_quaternions, identity_quaternion.
  rewrite !item_0, !item_1, !item_2, !item_3.
  cbv [lift2 py_mul py_sub py_add py_arith as_num num_binop bind ret app].
  repeat f_equal; ring.
Qed.

(** C1 (code defect): the specification gives the Hamilton product on
    quaternions stored as [[x, y, z, w]].  [multiply_quaternions] applies
    the formula with the scalar part at index 0.  For the half turn about
    X, [[1, 0, 0, 0]], composed with itself, the formula of the
    specification gives [[0, 0, 0, -1]] (the full turn), and the code
    returns [[1, 0, 0, 0]]. *)
Theorem C1_multiply_quaternions_differs_from_hamilton_xyzw :
  multiply_quaternions half_turn_x half_turn_x
    = ret (JArr [JInt 1; JInt 0; JInt 0; JInt 0]) /\
  hamilton_xyzw half_turn_x half_turn_x
    = ret (JArr [JInt 0; JInt 0; JInt 0; JInt (-1)]) /\
  multiply_quaternions half_turn_x half_turn_x
    <> hamilton_xyzw half_turn_x half_turn_x.
Proof.
  assert (Hc : multiply_quaternions half_turn_x half_turn_x
               = ret (JArr [JInt 1; JInt 0; JInt 0; JInt 0]))
    by (vm_compute; reflexivity).
  assert (Hs : hamilton_xyzw half_turn_x half_turn_x
               = ret (JArr [JInt 0; JInt 0; JInt 0; JInt (-1)]))
    by (vm_compute; reflexivity).
  repeat split; trivial.
  rewrite Hc, Hs. discriminate.
Qed.

(** C2 (code defect): the specification states that [(0, 0, 0, 1)] is
    neutral for the composition, on both sides.  For the unit quaternion
    [q = [1, 0, 0, 0]] the code returns [[0, 0, 0, 1]] for both
    [compose(q, identity)] and [compose(identity, q)], which is not [q]
    within any small tolerance, and [compose(identity, identity)] is
    [[-1, 0, 0, 0]]. *)
Theorem C2_identity_quaternion_is_not_neutral :
  multiply_quaternions half_turn_x identity_quaternion = ret identity_quaternion /\
  multiply_quaternions identity_quaternion half_turn_x = ret identity_quaternion /\
  multiply_quaternions identity_quaternion identity_quaternion
    = ret (JArr [JInt (-1); JInt 0; JInt 0; JInt 0]) /\
  multiply_quaternions half_turn_x identity_quaternion <> ret half_turn_x /\
  multiply_quaternions identity_quaternion half_turn_x <> ret half_turn_x /\
  multiply_quaternions identity_quaternion identity_quaternion
    <> ret identity_quaternion /\
  within_tolerance tolerance identity_quaternion half_turn_x = false.
Proof.
  assert (H1 : multiply_quaternions half_turn_x identity_quaternion
               = ret identity_quaternion) by (vm_compute; reflexivity).
  assert (H2 : multiply_quaternions identity_quaternion half_turn_x
               = ret identity_quaternion) by (vm_compute; reflexivity).
  assert (H3 : multiply_quaternions identity_quaternion identity_quaternion
               = ret (JArr [JInt (-1); JInt 0; JInt 0; JInt 0]))
    by (vm_compute; reflexivity).
  repeat split; trivial; rewrite ?H1, ?H2, ?H3; discriminate.
Qed.

(** ** Evaluating the script step by step *)

Lemma getitem_key (d : dict) (k : string) (v : json) :
  dict_get k d = Some v -> py_getitem (JObj d) (JStr k) = ret v.
Proof. intros H. simpl. rewrite H. reflexivity. Qed.

Lemma getitem_key_missing (d : dict) (k : string) :
  dict_get k d = None -> py_getitem (JObj d) (JStr k) = raise KeyError.
Proof. intros H. simpl. rewrite H. reflexivity. Qed.

Lemma getitem_first (x : json) (l : list json) :
  py_getitem (JArr (x :: l)) (JInt 0) = ret x.
Proof. reflexivity. Qed.

Lemma getitem_list (l : list json) (i : Z) (v : json) :
  list_index l i = Some v -> py_getitem (JArr l) (JInt i) = ret v.
Proof. intros H. cbn. rewrite H. reflexivity. Qed.

Lemma contains_key (d : dict) (k : string) :
  py_contains k (JObj d)
  = ret (match dict_get k d with Some _ => true | None => false end).
Proof. reflexivity. Qed.

Lemma list_index_Some {A} (l : list A) (i : Z) (v : A) :
  list_index l i = Some v ->
  exists p, norm_index (List.length l) i = Some p /\ nth_error l p = Some v.
Proof.
  unfold list_index. destruct (norm_index (List.length l) i) as [p |];
    [| discriminate].
  intros H. exists p. auto.
Qed.

Lemma list_index_None {A} (l : list A) (i : Z) :
  list_index l i = None <-> norm_index (List.length l) i = None.
Proof.
  unfold list_index. split.
  - destruct (norm_index (List.length l) i) as [p |] eqn:E; [| reflexivity].
    intros H. apply norm_index_lt in E. apply nth_error_None in H. lia.
  - intros ->. reflexivity.
Qed.

(** The position a valid index denotes: out of range exactly when
    [i < -len] or [len <= i]. *)
Lemma norm_index_None (n : nat) (i : Z) :
  norm_index n i = None <-> i < - Z.of_nat n \/ Z.of_nat n <= i.
Proof.
  unfold norm_index.
  destruct (i <? 0) eqn:Hi;
    [apply Z.ltb_lt in Hi | apply Z.ltb_ge in Hi];
    match goal with |- context [if ?c then _ else _] => destruct c eqn:Hc end.
  - apply andb_true_iff in Hc. destruct Hc as [H0 H1].
    apply Z.leb_le in H0. apply Z.ltb_lt in H1.
    split; [discriminate | lia].
  - apply andb_false_iff in Hc.
    split; [intros _ | reflexivity].
    destruct Hc as [H0 | H1];
      [apply Z.leb_gt in H0 | apply Z.ltb_ge in H1]; lia.
  - apply andb_true_iff in Hc. destruct Hc as [H0 H1].
    apply Z.leb_le in H0. apply Z.ltb_lt in H1.
    split; [discriminate | lia].
  - apply andb_false_iff in Hc.
    split; [intros _ | reflexivity].
    destruct Hc as [H0 | H1];
      [apply Z.leb_gt in H0 | apply Z.ltb_ge in H1]; lia.
Qed.

Lemma list_index_update {A} (l : list A) (i : Z) (p : nat) (v : A) :
  norm_index (List.length l) i = Some p ->
  list_index (list_update l p v) i = Some v.
Proof.
  intros H. unfold list_index. rewrite list_update_length, H.
  apply nth_error_list_update_eq. eapply norm_index_lt; eassumption.
Qed.

Lemma store_first (x v : json) (l : list json) :
  store_item (JArr (x :: l)) (JInt 0) v = JArr (v :: l).
Proof. reflexivity. Qed.

Lemma store_key (d : dict) (k : string) (v : json) :
  store_item (JObj d) (JStr k) v = JObj (dict_set k v d).
Proof. reflexivity. Qed.

Lemma store_list (l : list json) (i : Z) (p : nat) (v : json) :
  norm_index (List.length l) i = Some p ->
  store_item (JArr l) (JInt i) v = JArr (list_update l p v).
Proof. intros H. cbn. rewrite H. reflexivity. Qed.

Ltac run :=
  repeat first
    [ rewrite bind_ret_l; cbv beta
    | rewrite getitem_first
    | rewrite store_first
    | rewrite store_key
    | match goal with
      | H : dict_get ?k ?d = Some ?v |- context [py_getitem (JObj ?d) (JStr ?k)] =>
          rewrite (getitem_key d k v H)
      | H : dict_get ?k ?d = None |- context [py_getitem (JObj ?d) (JStr ?k)] =>
          rewrite (getitem_key_missing d k H)
      | H : list_index ?l ?i = Some ?v |- context [py_getitem (JArr ?l) (JInt ?i)] =>
          rewrite (getitem_list l i v H)
      | H : dict_get ?k ?d = _ |- context [py_contains ?k (JObj ?d)] =>
          rewrite (contains_key d k), H
      end
    | progress cbn [py_len py_setitem py_append List.length] ].

(** Reading back a step that returned. *)

Lemma of_option_pure {A} (e : exn) (o : option A) (a : A) (w : list log_record) :
  of_option e o = (Ok a, w) -> o = Some a /\ w = [].
Proof. destruct o; cbn; intros H; inversion H; auto. Qed.

Lemma py_getitem_pure (c i v : json) (w : list log_record) :
  py_getitem c i = (Ok v, w) -> py_getitem c i = ret v.
Proof.
  intros H. assert (Hw : snd (py_getitem c i) = []).
  { unfold py_getitem.
    destruct c as [| | | s | l | d]; try reflexivity.
    - destruct (as_index i); [| reflexivity].
      destruct (norm_index _ _); [| reflexivity].
      destruct (String.get _ _); reflexivity.
    - destruct (as_index i); [| reflexivity]. destruct (list_index l z); reflexivity.
    - destruct i; try reflexivity. destruct (dict_get s d); reflexivity. }
  rewrite H in Hw. cbn in Hw. subst w. exact H.
Qed.

Lemma getitem_key_inv (d : dict) (k : string) (v : json) (w : list log_record) :
  py_getitem (JObj d) (JStr k) = (Ok v, w) -> dict_get k d = Some v.
Proof. cbn. destruct (dict_get k d); cbn; intros H; inversion H; reflexivity. Qed.

Lemma py_setitem_inv (c : json) (k : string) (v c' : json) (w : list log_record) :
  py_setitem c k v = (Ok c', w) ->
  exists d, c = JObj d /\ c' = JObj (dict_set k v d).
Proof.
  destruct c; try discriminate. cbn. intros H. inversion H. eauto.
Qed.

Lemma py_len_pure (c : json) (n : Z) (w : list log_record) :
  py_len c = (Ok n, w) -> py_len c = ret n.
Proof. destruct c; try discriminate; cbn; intros H; inversion H; reflexivity. Qed.

Ltac binv H x E :=
  let w1 := fresh "w" in
  let w2 := fresh "w" in
  let Hw := fresh "Hw" in
  apply bind_Ok_inv in H; destruct H as (x & w1 & w2 & E & H & Hw).

Ltac ret_inv E := unfold ret in E; inversion E; subst; clear E.

Lemma py_contains_key_inv (k : string) (d : dict) (b : bool) (w : list log_record) :
  py_contains k (JObj d) = (Ok b, w) ->
  b = match dict_get k d with Some _ => true | None => false end.
Proof. cbn. intros H. inversion H. reflexivity. Qed.

(** ** The scene stage *)

(** The lemmas of this section run [reorient_scene] on a document whose
    first scene is an object: [d] is the document, [sc] its first scene and
    [rest] the scenes after it. *)
Section FirstScene.

Variables (d sc : dict) (rest : list json).
Hypothesis Hscenes : dict_get "scenes" d = Some (JArr (JObj sc :: rest)).

Lemma no_valid_scene_passes (tops : json) :
  dict_get "nodes" sc = Some tops ->
  truthy tops = true ->
  no_valid_scene (JObj d) = ret false.
Proof.
  intros Hn Ht. unfold no_valid_scene, py_get.
  rewrite Hscenes. run. cbn [truthy negb]. run.
  rewrite Hn. run. rewrite Ht. reflexivity.
Qed.

(** The single root without a rotation gets the fixed rotation. *)
Lemma reorient_single_plain (ns : list json) (i : Z) (nd : dict) :
  dict_get "nodes" sc = Some (JArr [JInt i]) ->
  dict_get "nodes" d = Some (JArr ns) ->
  list_index ns i = Some (JObj nd) ->
  dict_get "rotation" nd = None ->
  exists p,
    norm_index (List.length ns) i = Some p /\
    reorient_scene (JObj d) =
    ret (JObj (dict_set "nodes"
                 (JArr (list_update ns p
                          (JObj (dict_set "rotation" NINETY_DEG_X_ROTATION nd))))
                 d)).
Proof.
  intros Hn Hd Hi Hr.
  destruct (list_index_Some _ _ _ Hi) as [p [Hp _]]. exists p. split; [exact Hp |].
  unfold reorient_scene.
  rewrite (no_valid_scene_passes _ Hn eq_refl). run.
  cbn [Z.of_nat Pos.of_succ_nat Z.eqb Pos.eqb]. run.
  rewrite (store_list _ _ _ _ Hp). reflexivity.
Qed.

(** The single root with a rotation gets the product of its rotation, on
    the left, and the fixed rotation. *)
Lemma reorient_single_rotated (ns : list json) (i : Z) (nd : dict) (r q : json) :
  dict_get "nodes" sc = Some (JArr [JInt i]) ->
  dict_get "nodes" d = Some (JArr ns) ->
  list_index ns i = Some (JObj nd) ->
  dict_get "rotation" nd = Some r ->
  multiply_quaternions r NINETY_DEG_X_ROTATION = ret q ->
  exists p,
    norm_index (List.length ns) i = Some p /\
    reorient_scene (JObj d) =
    (Ok (JObj (dict_set "nodes"
                 (JArr (list_update ns p (JObj (dict_set "rotation" q nd)))) d)),
     [(INFO, "Applying rotation to existing root node.")]).
Proof.
  intros Hn Hd Hi Hr Hq.
  destruct (list_index_Some _ _ _ Hi) as [p [Hp _]]. exists p. split; [exact Hp |].
  unfold reorient_scene.
  rewrite (no_valid_scene_passes _ Hn eq_refl). run.
  cbn [Z.of_nat Pos.of_succ_nat Z.eqb Pos.eqb]. run.
  unfold log. rewrite bind_Ok. run. rewrite Hq. run.
  cbn [ret fst snd app]. rewrite bind_Ok. cbv beta. cbn [ret fst snd app].
  rewrite store_key, (store_list _ _ _ _ Hp). reflexivity.
Qed.

(** More than one root: a new root is appended and becomes the scene's
    only node. *)
Lemma reorient_multi (ns : list json) (t1 t2 : json) (tops : list json) :
  dict_get "nodes" sc = Some (JArr (t1 :: t2 :: tops)) ->
  dict_get "nodes" d = Some (JArr ns) ->
  reorient_scene (JObj d) =
  (Ok (JObj (dict_set "nodes"
               (JArr (ns ++ [reoriented_root (JArr (t1 :: t2 :: tops))]))
               (dict_set "scenes"
                  (JArr (JObj (dict_set "nodes"
                                 (JArr [JInt (Z.of_nat (List.length ns))]) sc)
                         :: rest))
                  d))),
   [(INFO, "Creating new root node for reorientation.")]).
Proof.
  intros Hn Hd. unfold reorient_scene.
  rewrite (no_valid_scene_passes _ Hn eq_refl). run.
  replace (Z.of_nat (S (S (List.length tops))) =? 1) with false
    by (symmetry; apply Z.eqb_neq; lia).
  unfold log. rewrite bind_Ok. run.
  assert (Hd' : dict_get "nodes"
      (dict_set "scenes"
         (JArr (JObj (dict_set "nodes" (JArr [JInt (Z.of_nat (List.length ns))]) sc)
                :: rest)) d) = Some (JArr ns))
    by (rewrite dict_get_set_ne by discriminate; exact Hd).
  run. reflexivity.
Qed.

(** A first scene without nodes makes the stage a logged no-op. *)
Lemma reorient_empty_scene :
  dict_get "nodes" sc = None \/ dict_get "nodes" sc = Some (JArr []) ->
  reorient_scene (JObj d)
  = (Ok (JObj d), [(WARNING, "No valid scene or nodes found in the glTF file.")]).
Proof.
  intros [Hn | Hn]; unfold reorient_scene, no_valid_scene, py_get;
    rewrite Hscenes; run; cbn [truthy negb]; run; rewrite Hn; run; reflexivity.
Qed.

End FirstScene.

Lemma list_index_app_last {A} (l : list A) (x : A) :
  list_index (l ++ [x]) (Z.of_nat (List.length l)) = Some x.
Proof.
  unfold list_index. rewrite norm_index_nonneg.
  - rewrite Nat2Z.id, nth_error_app2 by lia. rewrite Nat.sub_diag. reflexivity.
  - rewrite length_app. cbn [List.length]. lia.
Qed.

(** C9: in a document whose first scene has exactly one top-level node,
    and that node has no rotation field, [reorient_scene] returns, and the
    node's rotation is then [[sqrt 0.5, 0, 0, sqrt 0.5]], the fixed rotation
    by 90 degrees about X in [[x, y, z, w]] order. *)
Theorem C9_single_root_without_rotation
    (d sc : dict) (rest ns : list json) (i : Z) (nd : dict) :
  dict_get "scenes" d = Some (JArr (JObj sc :: rest)) ->
  dict_get "nodes" sc = Some (JArr [JInt i]) ->
  dict_get "nodes" d = Some (JArr ns) ->
  list_index ns i = Some (JObj nd) ->
  dict_get "rotation" nd = None ->
  exists doc',
    reorient_scene (JObj d) = ret doc' /\
    node_rotation doc' i =
      Some (JArr [JFloat (PrimFloat.sqrt 0.5); JInt 0; JInt 0;
                  JFloat (PrimFloat.sqrt 0.5)]).
Proof.
  intros Hs Hn Hd Hi Hr.
  destruct (reorient_single_plain d sc rest Hs ns i nd Hn Hd Hi Hr) as [p [Hp Hrun]].
  eexists. split; [exact Hrun |].
  unfold node_rotation, doc_nodes.
  rewrite dict_get_set_eq, (list_index_update _ _ _ _ Hp), dict_get_set_eq.
  reflexivity.
Qed.

Lemma C9_single_root_without_rotation_witness :
  exists doc',
    reorient_scene plain_root_doc = ret doc' /\
    node_rotation doc' 0 =
      Some (JArr [JFloat (PrimFloat.sqrt 0.5); JInt 0; JInt 0;
                  JFloat (PrimFloat.sqrt 0.5)]).
Proof.
  apply (C9_single_root_without_rotation
           [("asset", JObj [("version", JStr "2.0")]);
            ("scenes", JArr [JObj [("nodes", JArr [JInt 0])]]);
            ("nodes", JArr [JObj [("name", JStr "root")]])]
           [("nodes", JArr [JInt 0])] [] [JObj [("name", JStr "root")]] 0
           [("name", JStr "root")]);
    reflexivity.
Defined.

(** C3 (code defect): the root of [single_root_doc identity_quaternion]
    carries the identity rotation [[0, 0, 0, 1]].  The specification states
    that its rotation after [reorient] is the fixed rotation.  The code
    stores [multiply_quaternions(rotation, NINETY_DEG_X_ROTATION)], which
    is [[-sqrt 0.5, 0, 0, sqrt 0.5]]: the first component has the opposite
    sign. *)
Theorem C3_identity_rotation_is_not_kept_fixed :
  exists doc',
    reorient_scene (single_root_doc identity_quaternion)
      = (Ok doc', [(INFO, "Applying rotation to existing root node.")]) /\
    multiply_quaternions identity_quaternion NINETY_DEG_X_ROTATION
      = ret (JArr [JFloat (- PrimFloat.sqrt 0.5); JFloat 0; JFloat 0;
                   JFloat (PrimFloat.sqrt 0.5)]) /\
    node_rotation doc' 0
      = Some (JArr [JFloat (- PrimFloat.sqrt 0.5); JFloat 0; JFloat 0;
                    JFloat (PrimFloat.sqrt 0.5)]) /\
    node_rotation doc' 0 <> Some NINETY_DEG_X_ROTATION /\
    within_tolerance tolerance
      (JArr [JFloat (- PrimFloat.sqrt 0.5); JFloat 0; JFloat 0;
             JFloat (PrimFloat.sqrt 0.5)])
      NINETY_DEG_X_ROTATION = false.
Proof.
  eexists. split; [vm_compute; reflexivity |].
  split; [vm_compute; reflexivity |].
  assert (Hr : node_rotation
      (JObj [("asset", JObj [("version", JStr "2.0")]);
             ("scenes", JArr [JObj [("nodes", JArr [JInt 0])]]);
             ("nodes", JArr [JObj [("name", JStr "root");
                ("rotation", JArr [JFloat (-0x1.6a09e667f3bcdp-1); JFloat 0;
                                   JFloat 0; JFloat 0x1.6a09e667f3bcdp-1])]])]) 0
    = Some (JArr [JFloat (- PrimFloat.sqrt 0.5); JFloat 0; JFloat 0;
                  JFloat (PrimFloat.sqrt 0.5)]))
    by (vm_compute; reflexivity).
  split; [exact Hr |].
  split; [rewrite Hr; discriminate | vm_compute; reflexivity].
Qed.

(** C8 (code defect): the specification states that [reorient] applied
    twice to a single-root scene leaves the half turn about X,
    [(1, 0, 0, 0)] up to rounding.  With the code, the first application
    sets the fixed rotation and the second multiplies it by itself with
    [multiply_quaternions]: the result differs from the first (reorient is
    not idempotent), and it is [[0, 0, 0, 1 + 2^-52]], the identity up to
    rounding and not the half turn. *)
Theorem C8_reorient_twice_is_not_a_half_turn :
  exists doc1 doc2,
    reorient_scene plain_root_doc = ret doc1 /\
    node_rotation doc1 0 = Some NINETY_DEG_X_ROTATION /\
    reorient_scene doc1
      = (Ok doc2, [(INFO, "Applying rotation to existing root node.")]) /\
    node_rotation doc2 0
      = Some (JArr [JFloat 0; JFloat 0; JFloat 0; JFloat 0x1.0000000000001p+0]) /\
    doc2 <> doc1 /\
    within_tolerance tolerance
      (JArr [JFloat 0; JFloat 0; JFloat 0; JFloat 0x1.0000000000001p+0])
      half_turn_x = false /\
    within_tolerance tolerance
      (JArr [JFloat 0; JFloat 0; JFloat 0; JFloat 0x1.0000000000001p+0])
      identity_quaternion = true.
Proof.
  eexists. eexists.
  split; [vm_compute; reflexivity |].
  split; [vm_compute; reflexivity |].
  split; [vm_compute; reflexivity |].
  split; [vm_compute; reflexivity |].
  split; [| split; vm_compute; reflexivity].
  intros E. apply (f_equal (fun doc => node_rotation doc 0)) in E.
  vm_compute in E. discriminate E.
Qed.

(** C4: in a document whose first scene has more than one top-level node,
    [reorient_scene] appends exactly one node, [{name: "ReorientedRoot",
    rotation: [sqrt 0.5, 0, 0, sqrt 0.5], children: <the scene's node
    list>}], to the global node sequence, at the index [N] that was the
    length of the sequence; the scene's node list becomes [[N]]; the nodes
    at indices [0 .. N-1] are unchanged. *)
Theorem C4_multi_root_synthesis (d sc : dict) (rest ns tops : list json) :
  dict_get "scenes" d = Some (JArr (JObj sc :: rest)) ->
  dict_get "nodes" sc = Some (JArr tops) ->
  (1 < List.length tops)%nat ->
  dict_get "nodes" d = Some (JArr ns) ->
  exists doc',
    reorient_scene (JObj d)
      = (Ok doc', [(INFO, "Creating new root node for reorientation.")]) /\
    let new_root :=
      JObj [("name", JStr "ReorientedRoot");
            ("rotation", JArr [JFloat (PrimFloat.sqrt 0.5); JInt 0; JInt 0;
                               JFloat (PrimFloat.sqrt 0.5)]);
            ("children", JArr tops)] in
    doc_nodes doc' = Some (ns ++ [new_root]) /\
    list_index (ns ++ [new_root]) (Z.of_nat (List.length ns)) = Some new_root /\
    first_scene_nodes doc' = Some (JArr [JInt (Z.of_nat (List.length ns))]) /\
    (forall p, (p < List.length ns)%nat ->
       nth_error (ns ++ [new_root]) p = nth_error ns p).
Proof.
  intros Hs Hn Hlen Hd.
  destruct tops as [| t1 [| t2 tops]]; cbn [List.length] in Hlen; try lia.
  eexists. split; [apply (reorient_multi d sc rest Hs ns t1 t2 tops Hn Hd) |].
  cbv zeta. split.
  { unfold doc_nodes. rewrite dict_get_set_eq. reflexivity. }
  split; [apply list_index_app_last |].
  split.
  { unfold first_scene_nodes.
    rewrite dict_get_set_ne by discriminate. rewrite dict_get_set_eq.
    apply dict_get_set_eq. }
  intros p Hp. apply nth_error_app1. exact Hp.
Qed.

Lemma C4_multi_root_synthesis_witness :
  exists doc',
    reorient_scene
      (JObj [("scenes", JArr [JObj [("nodes", JArr [JInt 0; JInt 1; JInt 2])]]);
             ("nodes", JArr [JObj [("mesh", JInt 0)]; JObj []; JObj []])])
      = (Ok doc', [(INFO, "Creating new root node for reorientation.")]) /\
    let new_root :=
      JObj [("name", JStr "ReorientedRoot");
            ("rotation", JArr [JFloat (PrimFloat.sqrt 0.5); JInt 0; JInt 0;
                               JFloat (PrimFloat.sqrt 0.5)]);
            ("children", JArr [JInt 0; JInt 1; JInt 2])] in
    doc_nodes doc'
      = Some ([JObj [("mesh", JInt 0)]; JObj []; JObj []] ++ [new_root]) /\
    list_index ([JObj [("mesh", JInt 0)]; JObj []; JObj []] ++ [new_root]) 3
      = Some new_root /\
    first_scene_nodes doc' = Some (JArr [JInt 3]) /\
    (forall p, (p < 3)%nat ->
       nth_error ([JObj [("mesh", JInt 0)]; JObj []; JObj []] ++ [new_root]) p
       = nth_error [JObj [("mesh", JInt 0)]; JObj []; JObj []] p).
Proof.
  apply (C4_multi_root_synthesis
           [("scenes", JArr [JObj [("nodes", JArr [JInt 0; JInt 1; JInt 2])]]);
            ("nodes", JArr [JObj [("mesh", JInt 0)]; JObj []; JObj []])]
           [("nodes", JArr [JInt 0; JInt 1; JInt 2])] []
           [JObj [("mesh", JInt 0)]; JObj []; JObj []]
           [JInt 0; JInt 1; JInt 2]);
    try reflexivity.
  cbn [List.length]. lia.
Defined.

(** ** The material stage *)

(** The clamp returns [0], [1], or its argument when that lies strictly
    between them; it is defined on every number, NaN and the infinities
    included. *)
Lemma clamp01_cases (v : num) :
  clamp01 v = NInt 0 \/ clamp01 v = NInt 1 \/
  (clamp01 v = v /\ num_gtb v (NInt 0) = true /\ num_ltb v (NInt 1) = true).
Proof.
  unfold clamp01, py_min, py_max.
  destruct (num_ltb v (NInt 1)) eqn:Hlt.
  - destruct (num_gtb v (NInt 0)) eqn:Hgt; auto.
  - right. left. reflexivity.
Qed.

Lemma clamp01_int (z : Z) : clamp01 (NInt z) = NInt (Z.max 0 (Z.min 1 z)).
Proof.
  unfold clamp01, py_min, py_max, num_ltb, num_gtb, num_cmp.
  destruct (Z.compare_spec z 1) as [H1 | H1 | H1].
  - subst. reflexivity.
  - destruct (Z.compare_spec z 0) as [H0 | H0 | H0]; f_equal; lia.
  - cbn. f_equal. lia.
Qed.

Lemma dict_set_set (k : string) (v1 v2 : json) (d : dict) :
  dict_set k v2 (dict_set k v1 d) = dict_set k v2 d.
Proof.
  induction d as [| [k' v'] d IH]; simpl.
  - rewrite String.eqb_refl. reflexivity.
  - destruct (String.eqb k k') eqn:E; simpl; rewrite E; [| rewrite IH]; reflexivity.
Qed.

Lemma set_factor_get_eq (k : string) (v : num) (ov : bool) (p : dict) :
  dict_get k (set_factor k v ov p) = Some (factor_after k v ov p).
Proof.
  unfold set_factor, factor_after.
  destruct (dict_get k p) as [old |] eqn:E; [destruct ov |];
    rewrite ?dict_get_set_eq; auto.
Qed.

Lemma set_factor_get_ne (k k' : string) (v : num) (ov : bool) (p : dict) :
  k' <> k -> dict_get k' (set_factor k v ov p) = dict_get k' p.
Proof.
  intros Hne. unfold set_factor.
  destruct (dict_get k p); [destruct ov |];
    rewrite ?dict_get_set_ne by assumption; reflexivity.
Qed.

(** One conditional assignment of the loop body. *)
Lemma set_factor_run (k : string) (v : num) (ov : bool) (p : dict) (K : json -> M json) :
  (has <- py_contains k (JObj p) ;;
   pbr <- (if negb has || ov
           then py_setitem (JObj p) k (JNum (clamp01 v))
           else ret (JObj p)) ;;
   K pbr)
  = K (JObj (set_factor k v ov p)).
Proof.
  rewrite contains_key, bind_ret_l. unfold set_factor.
  destruct (dict_get k p); destruct ov; cbn [negb orb py_setitem];
    rewrite bind_ret_l; reflexivity.
Qed.

Lemma for_each_spec (body : json -> M json) (P : json -> bool)
    (R : json -> json -> Prop) (l : list json) :
  (forall x, P x = true -> exists x', body x = ret x' /\ R x x') ->
  Forall (fun x => P x = true) l ->
  exists l', for_each body l = ret l' /\ Forall2 R l l'.
Proof.
  intros Hbody Hl. induction Hl as [| x l Hx Hl IH]; cbn [for_each].
  - exists []. split; [reflexivity | constructor].
  - destruct (Hbody x Hx) as [x' [Ex Rx]]. destruct IH as [l' [El Rl]].
    exists (x' :: l'). rewrite Ex, bind_ret_l, El, bind_ret_l.
    split; [reflexivity | constructor; assumption].
Qed.

Lemma for_each_inv (body : json -> M json) (R : json -> json -> Prop)
    (l l' : list json) (w : list log_record) :
  (forall x x' w', body x = (Ok x', w') -> R x x') ->
  for_each body l = (Ok l', w) -> Forall2 R l l'.
Proof.
  intros Hbody. revert l' w. induction l as [| x l IH]; intros l' w H; cbn in H.
  - ret_inv H. constructor.
  - binv H x' Hx. binv H l'' Hl. ret_inv H.
    constructor; [eapply Hbody | eapply IH]; eassumption.
Qed.

(** The lemmas of this section hold for every value of the two factors and
    of the override flag. *)
Section MaterialStage.

Variables (metallic roughness : num) (override : bool).

Lemma patch_material_run (fields pbr : dict) :
  existing_pbr fields = Some pbr ->
  patch_material metallic roughness override (JObj fields)
  = ret (JObj (dict_set "pbrMetallicRoughness"
                 (JObj (set_factor "roughnessFactor" roughness override
                          (set_factor "metallicFactor" metallic override pbr)))
                 fields)).
Proof.
  unfold existing_pbr, patch_material, py_setdefault. intros Hp.
  destruct (dict_get "pbrMetallicRoughness" fields) as [[| | | | | p] |];
    try discriminate; inversion Hp; subst; rewrite bind_ret_l;
    rewrite set_factor_run, set_factor_run, store_key;
    rewrite ?dict_set_set; reflexivity.
Qed.

Lemma patch_material_spec (mat : json) :
  material_ok mat = true ->
  exists mat',
    patch_material metallic roughness override mat = ret mat' /\
    patched metallic roughness override mat mat'.
Proof.
  destruct mat as [| | | | | fields]; try discriminate.
  unfold material_ok. destruct (existing_pbr fields) as [pbr |] eqn:Hp;
    [intros _ | discriminate].
  eexists. split; [apply patch_material_run; exact Hp |].
  exists fields, pbr,
    (set_factor "roughnessFactor" roughness override
       (set_factor "metallicFactor" metallic override pbr)).
  split; [reflexivity |]. split; [exact Hp |]. split; [reflexivity |].
  split; [| split].
  - rewrite set_factor_get_ne by discriminate. apply set_factor_get_eq.
  - rewrite set_factor_get_eq. unfold factor_after.
    rewrite set_factor_get_ne by discriminate. reflexivity.
  - intros k Hm Hr. rewrite !set_factor_get_ne by assumption. reflexivity.
Qed.

(** A material the loop body returns for is as it was, or patched in its
    two factors only. *)
Lemma patch_material_inv (mat mat' : json) (w : list log_record) :
  patch_material metallic roughness override mat = (Ok mat', w) ->
  material_frame mat mat'.
Proof.
  intros H. destruct mat as [| | | | | f]; try discriminate.
  destruct (existing_pbr f) as [p |] eqn:Hp.
  - rewrite (patch_material_run f p Hp) in H. ret_inv H.
    right. exists f, p. eexists. repeat split; trivial.
    intros k Hk. rewrite !set_factor_get_ne; trivial;
      intros ->; apply Hk; cbn; auto.
  - left. unfold existing_pbr in Hp.
    destruct (dict_get "pbrMetallicRoughness" f) as [v |] eqn:Hv; [| discriminate].
    unfold patch_material, py_setdefault in H. rewrite Hv, bind_ret_l in H.
    destruct v as [| | | s | l | p]; try discriminate;
      cbn [py_contains] in H; rewrite bind_ret_l in H;
      match type of H with context [if ?c then _ else _] => destruct c end;
      try discriminate; rewrite bind_ret_l in H; cbn [py_contains] in H;
      rewrite bind_ret_l in H;
      match type of H with context [if ?c then _ else _] => destruct c end;
      try discriminate; rewrite bind_ret_l, store_key in H; ret_inv H;
      rewrite (dict_set_same _ _ _ Hv); reflexivity.
Qed.

(** Without a material list the stage is a logged no-op. *)
Lemma materials_noop (d : dict) :
  dict_get "materials" d = None ->
  modify_materials metallic roughness override (JObj d)
  = (Ok (JObj d), [(WARNING, "No materials found in the glTF file.")]).
Proof.
  intros Hm. unfold modify_materials. run. reflexivity.
Qed.

Lemma materials_list_run (d : dict) (ms : list json) :
  dict_get "materials" d = Some (JArr ms) ->
  Forall (fun material => material_ok material = true) ms ->
  exists ms',
    modify_materials metallic roughness override (JObj d)
      = (Ok (JObj (dict_set "materials" (JArr ms') d)),
         [(INFO, "Modifying materials...")]) /\
    Forall2 (patched metallic roughness override) ms ms'.
Proof.
  intros Hm Hok.
  destruct (for_each_spec (patch_material metallic roughness override) material_ok
              (patched metallic roughness override) ms patch_material_spec Hok)
    as [ms' [Hrun Hrel]].
  exists ms'. split; [| exact Hrel].
  unfold modify_materials. run.
  unfold log. rewrite bind_Ok. run. cbn [py_iter]. run.
  rewrite Hrun. run. reflexivity.
Qed.

Lemma materials_ok_run (d : dict) :
  materials_ok d = true ->
  exists doc' w,
    modify_materials metallic roughness override (JObj d) = (Ok doc', w).
Proof.
  unfold materials_ok.
  destruct (dict_get "materials" d) as [[| | | | ms |] |] eqn:Hm;
    try discriminate; intros Hok.
  - assert (Hall : Forall (fun material => material_ok material = true) ms)
      by (apply Forall_forall; apply (proj1 (forallb_forall _ _) Hok)).
    destruct (materials_list_run d ms Hm Hall) as [ms' [Hrun _]]. eauto.
  - rewrite (materials_noop d Hm). eauto.
Qed.

(** A run of the stage that returns leaves the document as it was, or
    replaces the material list by a list of the same length. *)
Lemma modify_materials_inv (doc doc' : json) (w : list log_record) :
  modify_materials metallic roughness override doc = (Ok doc', w) ->
  doc' = doc \/
  exists d ms ms',
    doc = JObj d /\ dict_get "materials" d = Some (JArr ms) /\
    doc' = JObj (dict_set "materials" (JArr ms') d) /\
    Forall2 material_frame ms ms'.
Proof.
  unfold modify_materials. intros H. binv H has Hhas.
  destruct has.
  - binv H u Hlog. binv H materials Hm.
    destruct doc as [| | | s | l | d]; try discriminate.
    apply getitem_key_inv in Hm.
    binv H items Hitems. binv H items' Hrun.
    destruct materials as [| | | | ms |]; try (ret_inv H; left; reflexivity).
    ret_inv H. unfold py_iter, ret in Hitems. injection Hitems as <- _.
    right. exists d, ms, items'.
    repeat split; trivial.
    eapply for_each_inv; [| eassumption].
    intros x x' w'. apply patch_material_inv.
  - binv H u Hlog. ret_inv H. left. reflexivity.
Qed.

End MaterialStage.

Lemma float_cmp_Z_unit (f : float) :
  match float_cmp_Z f 1 with
  | Some Lt => float_cmp_Z f 0 <> None
  | Some _ => float_cmp_Z f 0 = Some Gt
  | None => float_cmp_Z f 0 = None
  end.
Proof.
  unfold float_cmp_Z. destruct (Prim2SF f) as [s | s | | s m e].
  - cbn. discriminate.
  - destruct s; [discriminate | reflexivity].
  - reflexivity.
  - destruct e as [| p | p].
    + destruct (Z.compare_spec ((if s then Z.neg m else Z.pos m) * 2 ^ 0) 1) as [H | H | H];
        [| discriminate |]; f_equal; apply Z.compare_gt_iff; lia.
    + pose proof (Z.pow_pos_nonneg 2 (Z.pos p) ltac:(lia) ltac:(lia)) as Hpow.
      destruct (Z.compare_spec ((if s then Z.neg m else Z.pos m) * 2 ^ Z.pos p) 1)
        as [H | H | H]; [| discriminate |]; f_equal; apply Z.compare_gt_iff; lia.
    + pose proof (Z.pow_pos_nonneg 2 (Z.pos p) ltac:(lia) ltac:(lia)) as Hpow.
      destruct (Z.compare_spec (if s then Z.neg m else Z.pos m) (1 * 2 ^ Z.pos p))
        as [H | H | H]; [| discriminate |]; f_equal; apply Z.compare_gt_iff; lia.
Qed.

(** The clamp of the code is the clamp of the specification. *)
Lemma clamp01_unit_clamp (v : num) : clamp01 v = unit_clamp v.
Proof.
  destruct v as [z | f].
  - rewrite clamp01_int. unfold unit_clamp. cbn [num_cmp].
    destruct (Z.compare_spec z 0) as [H0 | H0 | H0];
      [| | destruct (Z.compare_spec z 1) as [H1 | H1 | H1]]; f_equal; lia.
  - unfold clamp01, unit_clamp, py_min, py_max, num_ltb, num_gtb.
    cbn [num_cmp]. pose proof (float_cmp_Z_unit f) as H.
    destruct (float_cmp_Z f 1) as [[| |] |].
    + rewrite H. reflexivity.
    + cbn [num_cmp]. destruct (float_cmp_Z f 0) as [[| |] |]; congruence.
    + rewrite H. reflexivity.
    + rewrite H. reflexivity.
Qed.

Lemma patched_is_specified (m r : num) (ov : bool) (material material' : json) :
  patched m r ov material material' -> patched_as_specified m r ov material material'.
Proof.
  intros (fields & pbr & pbr' & E & Hp & E' & Hm & Hr & Hk).
  exists fields, pbr, pbr'. unfold specified_factor.
  rewrite <- !clamp01_unit_clamp. auto 10.
Qed.

(** C5: for every material of the material list, the material stage makes
    the [pbrMetallicRoughness] substructure exist, sets [metallicFactor] to
    [max(0, min(1, metallic))] when the field is absent or [override] is
    true and leaves it as it is otherwise, and does the same for
    [roughnessFactor] with [roughness].  No value of [metallic] or
    [roughness] is rejected: the stage returns for all of them.  The value
    written is [0] for a number that is at most 0, [1] for a number that
    is at least 1 (and for a NaN) and the number itself strictly between
    them; for an integer [z] it is [Z.max 0 (Z.min 1 z)], and [0.25],
    [5.0] and [-2.0] give [0.25], [1] and [0]. *)
Theorem C5_material_factors (d : dict) (ms : list json) (metallic roughness : num)
    (override : bool) :
  dict_get "materials" d = Some (JArr ms) ->
  Forall (fun material => material_ok material = true) ms ->
  exists ms',
    modify_gltf (JObj d) metallic roughness override false
      = (Ok (JObj (dict_set "materials" (JArr ms') d)),
         [(INFO, "Modifying materials...")]) /\
    Forall2 (patched_as_specified metallic roughness override) ms ms' /\
    (forall z, unit_clamp (NInt z) = NInt (Z.max 0 (Z.min 1 z))) /\
    unit_clamp (NFloat 0.25) = NFloat 0.25 /\
    unit_clamp (NFloat 5) = NInt 1 /\
    unit_clamp (NFloat (-2)) = NInt 0.
Proof.
  intros Hm Hok.
  destruct (materials_list_run metallic roughness override d ms Hm Hok)
    as [ms' [Hrun Hrel]].
  exists ms'. split; [| split].
  - unfold modify_gltf. rewrite bind_ret_l. exact Hrun.
  - eapply Forall2_impl; [| exact Hrel]. intros a b. apply patched_is_specified.
  - split; [| repeat split; vm_compute; reflexivity].
    intros z. rewrite <- clamp01_unit_clamp. apply clamp01_int.
Qed.

Lemma C5_material_factors_witness :
  exists ms',
    modify_gltf
      (JObj [("materials",
              JArr [JObj [("name", JStr "bare")];
                    JObj [("pbrMetallicRoughness",
                           JObj [("metallicFactor", JFloat 0.75)])]])])
      (NFloat 0.25) (NFloat 5) false false
      = (Ok (JObj (dict_set "materials" (JArr ms')
                     [("materials",
                       JArr [JObj [("name", JStr "bare")];
                             JObj [("pbrMetallicRoughness",
                                    JObj [("metallicFactor", JFloat 0.75)])]])])),
         [(INFO, "Modifying materials...")]) /\
    Forall2 (patched_as_specified (NFloat 0.25) (NFloat 5) false)
      [JObj [("name", JStr "bare")];
       JObj [("pbrMetallicRoughness", JObj [("metallicFactor", JFloat 0.75)])]]
      ms' /\
    (forall z, unit_clamp (NInt z) = NInt (Z.max 0 (Z.min 1 z))) /\
    unit_clamp (NFloat 0.25) = NFloat 0.25 /\
    unit_clamp (NFloat 5) = NInt 1 /\
    unit_clamp (NFloat (-2)) = NInt 0.
Proof.
  apply (C5_material_factors
           [("materials",
             JArr [JObj [("name", JStr "bare")];
                   JObj [("pbrMetallicRoughness",
                          JObj [("metallicFactor", JFloat 0.75)])]])]
           [JObj [("name", JStr "bare")];
            JObj [("pbrMetallicRoughness", JObj [("metallicFactor", JFloat 0.75)])]]
           (NFloat 0.25) (NFloat 5) false).
  - reflexivity.
  - repeat constructor.
Defined.

(** ** What a run that returned has done *)

Lemma no_valid_scene_inv (doc : json) (b : bool) (w : list log_record) :
  no_valid_scene doc = (Ok b, w) ->
  w = [] /\
  exists d, doc = JObj d /\
    (b = false ->
     exists sc rest tops,
       dict_get "scenes" d = Some (JArr (JObj sc :: rest)) /\
       dict_get "nodes" sc = Some tops /\ truthy tops = true).
Proof.
  unfold no_valid_scene. destruct doc as [| | | | | d]; try discriminate.
  unfold py_get at 1. rewrite bind_ret_l.
  destruct (dict_get "scenes" d) as [s |] eqn:Hs.
  2:{ cbn. intros H. inversion H. split; [reflexivity |]. exists d. split; [reflexivity | discriminate]. }
  destruct (truthy s) eqn:Ht; cbn [negb].
  2:{ intros H. inversion H. split; [reflexivity |]. exists d. split; [reflexivity | discriminate]. }
  rewrite (getitem_key _ _ _ Hs), bind_ret_l.
  destruct s as [| | | str | [| [| | | | | sc] rest] | o]; try discriminate.
  all: try (destruct o as [| [? ?] ?]; discriminate).
  all: try (cbn; destruct (norm_index _ _); [destruct (String.get _ _) |]; discriminate).
  rewrite getitem_first, bind_ret_l. unfold py_get. rewrite bind_ret_l.
  destruct (dict_get "nodes" sc) as [tops |] eqn:Hn.
  - destruct (truthy tops) eqn:Htops; intros H; inversion H;
      (split; [reflexivity |]); exists d; (split; [reflexivity |]);
      [| discriminate].
    intros _. exists sc, rest, tops. auto.
  - intros H. inversion H. split; [reflexivity |]. exists d.
    split; [reflexivity | discriminate].
Qed.

Lemma reorient_scene_inv (doc doc' : json) (w : list log_record) :
  reorient_scene doc = (Ok doc', w) ->
  (doc' = doc /\
   w = [(WARNING, "No valid scene or nodes found in the glTF file.")] /\
   no_valid_scene doc = ret true)
  \/ exists d sc rest tops,
       doc = JObj d /\
       dict_get "scenes" d = Some (JArr (JObj sc :: rest)) /\
       dict_get "nodes" sc = Some tops /\
       truthy tops = true /\
       ((exists nodes idx nd q,
           py_len tops = ret 1 /\
           py_getitem tops (JInt 0) = ret idx /\
           dict_get "nodes" d = Some nodes /\
           py_getitem nodes idx = ret (JObj nd) /\
           (dict_get "rotation" nd = None /\ q = NINETY_DEG_X_ROTATION \/
            exists r, dict_get "rotation" nd = Some r /\
                      fst (multiply_quaternions r NINETY_DEG_X_ROTATION) = Ok q) /\
           doc' = JObj (dict_set "nodes"
                          (store_item nodes idx (JObj (dict_set "rotation" q nd))) d))
        \/
        (exists n ns,
           py_len tops = ret n /\ n <> 1 /\
           dict_get "nodes" d = Some (JArr ns) /\
           doc' = JObj (dict_set "nodes" (JArr (ns ++ [reoriented_root tops]))
                          (dict_set "scenes"
                             (JArr (JObj (dict_set "nodes"
                                            (JArr [JInt (Z.of_nat (List.length ns))]) sc)
                                    :: rest))
                             d)))).
Proof.
  unfold reorient_scene. intros H. binv H skip Hg.
  destruct (no_valid_scene_inv _ _ _ Hg) as [-> [d [-> Hshape]]].
  destruct skip.
  { left. cbn in H. inversion H. subst. auto. }
  right. clear Hg. destruct (Hshape eq_refl) as (sc & rest & tops & Hs & Hn & Ht).
  exists d, sc, rest, tops. split; [reflexivity |]. do 3 (split; [assumption |]).
  revert H. run. intros H. binv H n Hlen. apply py_len_pure in Hlen.
  destruct (n =? 1) eqn:En.
  - left. apply Z.eqb_eq in En. subst n.
    binv H nodes Hnodes. apply getitem_key_inv in Hnodes.
    binv H tops' Htops'. ret_inv Htops'.
    binv H idx Hidx. apply py_getitem_pure in Hidx.
    binv H root_node Hroot. apply py_getitem_pure in Hroot.
    binv H has Hhas. binv H root_node' Hset. ret_inv H.
    assert (Hq : exists q nd,
      root_node = JObj nd /\ root_node' = JObj (dict_set "rotation" q nd) /\
      (dict_get "rotation" nd = None /\ q = NINETY_DEG_X_ROTATION \/
       exists r, dict_get "rotation" nd = Some r /\
                 fst (multiply_quaternions r NINETY_DEG_X_ROTATION) = Ok q)).
    { destruct has.
      - binv Hset u Hlog. binv Hset r Hr. binv Hset q Hq.
        apply py_setitem_inv in Hset. destruct Hset as (nd & -> & ->).
        apply getitem_key_inv in Hr.
        exists q, nd. repeat split. right. exists r. rewrite Hq. auto.
      - pose proof Hset as Hset'.
        apply py_setitem_inv in Hset'. destruct Hset' as (nd & -> & ->).
        apply py_contains_key_inv in Hhas.
        exists NINETY_DEG_X_ROTATION, nd. repeat split. left.
        destruct (dict_get "rotation" nd); [discriminate | auto]. }
    destruct Hq as (q & nd & -> & -> & Hq).
    exists nodes, idx, nd, q. auto 10.
  - right. apply Z.eqb_neq in En.
    binv H u Hlog.
    binv H nodes Hnodes. apply getitem_key_inv in Hnodes.
    binv H len_nodes Hlen'. apply py_len_pure in Hlen'.
    binv H scene' Hscene. ret_inv Hscene.
    revert H. run. intros H. binv H nodes2 Hnodes2. apply getitem_key_inv in Hnodes2.
    rewrite dict_get_set_ne in Hnodes2 by discriminate.
    rewrite Hnodes in Hnodes2. inversion Hnodes2; subst nodes2. clear Hnodes2.
    binv H nodes' Happ. ret_inv H.
    destruct nodes as [| | | | ns |]; try discriminate.
    ret_inv Happ. ret_inv Hlen'.
    exists n, ns. auto.
Qed.

(** A read that gave an object came from a list or from a dict, and the
    write-back replaces the item that was read. *)
Lemma getitem_obj_store (c i : json) (nd : dict) :
  py_getitem c i = ret (JObj nd) ->
  (exists ns p, c = JArr ns /\ nth_error ns p = Some (JObj nd) /\
                forall v, store_item c i v = JArr (list_update ns p v)) \/
  (exists nm k, c = JObj nm /\ dict_get k nm = Some (JObj nd) /\
                forall v, store_item c i v = JObj (dict_set k v nm)).
Proof.
  destruct c as [| | | s | ns | nm]; try discriminate.
  - cbn. destruct (as_index i); [| discriminate].
    destruct (norm_index _ _); [| discriminate].
    destruct (String.get _ _); discriminate.
  - cbn. destruct (as_index i) as [z |]; [| discriminate].
    intros H. apply of_option_pure in H. destruct H as [H _].
    destruct (list_index_Some _ _ _ H) as [p [Hp Hnth]].
    left. exists ns, p. repeat split; trivial.
    intros v. rewrite Hp. reflexivity.
  - destruct i as [| | | k | |]; try discriminate.
    intros H. apply getitem_key_inv in H.
    right. exists nm, k. auto.
Qed.

Lemma same_fields_set (k : string) (v : json) (d : dict) :
  same_fields_except [k] d (dict_set k v d).
Proof.
  intros k' Hk. apply dict_get_set_ne. intros ->. apply Hk. left. reflexivity.
Qed.

Lemma reorient_scene_frame (doc doc1 : json) (w : list log_record) :
  reorient_scene doc = (Ok doc1, w) ->
  doc1 = doc \/
  exists d d1,
    doc = JObj d /\ doc1 = JObj d1 /\
    map fst d1 = map fst d /\
    same_fields_except ["scenes"; "nodes"] d d1 /\
    scenes_frame (dict_get "scenes" d) (dict_get "scenes" d1) /\
    nodes_frame (dict_get "nodes" d) (dict_get "nodes" d1).
Proof.
  intros H. apply reorient_scene_inv in H.
  destruct H as [[-> _] | (d & sc & rest & tops & -> & Hs & Hn & Ht & Hcase)];
    [left; reflexivity | right].
  destruct Hcase as [(nodes & idx & nd & q & _ & _ & Hd & Hroot & _ & ->)
                    | (n & ns & _ & _ & Hd & ->)].
  - eexists. eexists. split; [reflexivity |]. split; [reflexivity |].
    split; [apply (dict_set_keys _ _ _ _ Hd) |].
    split; [| split].
    + intros k Hk. apply dict_get_set_ne. intros ->. apply Hk. cbn. auto.
    + left. apply dict_get_set_ne. discriminate.
    + rewrite dict_get_set_eq, Hd.
      destruct (getitem_obj_store _ _ _ Hroot)
        as [(l & p & -> & Hnth & Hst) | (nm & k & -> & Hk & Hst)];
        rewrite Hst; right; right; [left | right].
      * exists l, p, (JObj nd), (JObj (dict_set "rotation" q nd)).
        repeat split; trivial. exists nd. eexists.
        repeat split. apply same_fields_set.
      * exists nm, k, (JObj nd), (JObj (dict_set "rotation" q nd)).
        repeat split; trivial. exists nd. eexists.
        repeat split. apply same_fields_set.
  - eexists. eexists. split; [reflexivity |]. split; [reflexivity |].
    split.
    { rewrite (dict_set_keys "nodes" _ (JArr ns)).
      - apply (dict_set_keys _ _ _ _ Hs).
      - rewrite dict_get_set_ne by discriminate. exact Hd. }
    split; [| split].
    + intros k Hk. rewrite !dict_get_set_ne; trivial;
        intros ->; apply Hk; cbn; auto.
    + right. exists sc. eexists. exists rest.
      split; [exact Hs |].
      split; [rewrite dict_get_set_ne by discriminate; apply dict_get_set_eq |].
      split; [apply (dict_set_keys _ _ _ _ Hn) | apply same_fields_set].
    + right. left. exists ns. eexists. split; [exact Hd |].
      apply dict_get_set_eq.
Qed.

(** C7: whenever the run returns a document, that document differs from
    the input in nothing but the node list of the first scene, the global
    node sequence (one node appended, or the [rotation] field of one node),
    and the [metallicFactor] and [roughnessFactor] of the
    [pbrMetallicRoughness] of the materials.  The top-level keys and their
    order are those of the input, and every other field, at every level,
    has its original value. *)
Theorem C7_structural_preservation (doc doc' : json) (metallic roughness : num)
    (override reorient : bool) (w : list log_record) :
  modify_gltf doc metallic roughness override reorient = (Ok doc', w) ->
  frame doc doc'.
Proof.
  unfold modify_gltf. intros H. binv H doc1 H1.
  assert (Hscene : doc1 = doc \/
    exists d d1,
      doc = JObj d /\ doc1 = JObj d1 /\
      map fst d1 = map fst d /\
      same_fields_except ["scenes"; "nodes"] d d1 /\
      scenes_frame (dict_get "scenes" d) (dict_get "scenes" d1) /\
      nodes_frame (dict_get "nodes" d) (dict_get "nodes" d1)).
  { destruct reorient.
    - binv H1 u Hlog. eapply reorient_scene_frame; eassumption.
    - ret_inv H1. left. reflexivity. }
  apply modify_materials_inv in H.
  destruct Hscene as [-> | (d & d1 & -> & -> & Hkeys & Hsame & Hsc & Hnd)].
  - destruct H as [-> | (d & ms & ms' & -> & Hm & -> & Hrel)];
      [left; reflexivity | right].
    exists d. eexists. split; [reflexivity |]. split; [reflexivity |].
    split; [apply (dict_set_keys _ _ _ _ Hm) |].
    split; [| split; [| split]].
    + intros k Hk. apply dict_get_set_ne. intros ->. apply Hk. cbn. auto.
    + left. apply dict_get_set_ne. discriminate.
    + left. apply dict_get_set_ne. discriminate.
    + right. exists ms, ms'. rewrite dict_get_set_eq. auto.
  - assert (Hmat : dict_get "materials" d1 = dict_get "materials" d).
    { apply Hsame. cbn. intros [E | [E | []]]; discriminate. }
    right. destruct H as [-> | (d1' & ms & ms' & E & Hm & -> & Hrel)].
    + exists d, d1. repeat split; trivial.
      * intros k Hk. apply Hsame. intros Hin. apply Hk. cbn in *. tauto.
      * left. exact Hmat.
    + inversion E; subst d1'. clear E.
      exists d. eexists. split; [reflexivity |]. split; [reflexivity |].
      split; [rewrite (dict_set_keys _ _ _ _ Hm); exact Hkeys |].
      split; [| split; [| split]].
      * intros k Hk. rewrite dict_get_set_ne.
        -- apply Hsame. intros Hin. apply Hk. cbn in *. tauto.
        -- intros ->. apply Hk. cbn. auto.
      * rewrite dict_get_set_ne by discriminate. exact Hsc.
      * rewrite dict_get_set_ne by discriminate. exact Hnd.
      * right. exists ms, ms'. rewrite dict_get_set_eq, <- Hmat. auto.
Qed.

Lemma C7_structural_preservation_witness : frame sample_doc sample_doc_after.
Proof.
  apply (C7_structural_preservation sample_doc sample_doc_after
           (NFloat 0.25) (NFloat 5) false true
           [(INFO, "Reorienting scene...");
            (INFO, "Creating new root node for reorientation.");
            (INFO, "Modifying materials...")]).
  vm_compute. reflexivity.
Defined.

Lemma first_scene_nodes_inv (doc tops : json) :
  first_scene_nodes doc = Some tops ->
  exists d sc rest,
    doc = JObj d /\ dict_get "scenes" d = Some (JArr (JObj sc :: rest)) /\
    dict_get "nodes" sc = Some tops.
Proof.
  destruct doc as [| | | | | d]; try discriminate. cbn.
  destruct (dict_get "scenes" d) as [[| | | | [| [| | | | | sc] rest] |] |] eqn:Hs;
    try discriminate.
  intros H. exists d, sc, rest. auto.
Qed.

(** C10 (amended): [reorient_scene] does not degrade to a logged no-op when
    the first scene has nodes and the node sequence cannot serve them.
    With one or with two roots and no top-level [nodes] it raises
    [KeyError]; with a single root whose index is not a position of the
    node sequence it raises [IndexError].  A run that returns, on a
    document whose first scene has a non-empty node list, had a top-level
    [nodes]; and when that list is a single integer [i] and [nodes] is a
    list, [i] is an index Python accepts for it ([-len <= i < len]) and
    the item there is an object.  With several roots the indices are not
    looked up: the run returns whenever [nodes] is a list. *)
Theorem C10_reorient_needs_valid_nodes :
  (first_scene_nodes missing_nodes_doc = Some (JArr [JInt 0]) /\
   doc_nodes missing_nodes_doc = None /\
   reorient_scene missing_nodes_doc = raise KeyError) /\
  (first_scene_nodes missing_nodes_multi_doc = Some (JArr [JInt 0; JInt 1]) /\
   doc_nodes missing_nodes_multi_doc = None /\
   reorient_scene missing_nodes_multi_doc
     = (Raise KeyError, [(INFO, "Creating new root node for reorientation.")])) /\
  (first_scene_nodes bad_index_doc = Some (JArr [JInt 3]) /\
   doc_nodes bad_index_doc = Some [JObj [("name", JStr "root")]] /\
   reorient_scene bad_index_doc = raise IndexError) /\
  (forall doc tops doc' w,
     first_scene_nodes doc = Some tops -> truthy tops = true ->
     reorient_scene doc = (Ok doc', w) ->
     exists d nodes, doc = JObj d /\ dict_get "nodes" d = Some nodes) /\
  (forall doc i ns doc' w,
     first_scene_nodes doc = Some (JArr [JInt i]) ->
     doc_nodes doc = Some ns ->
     reorient_scene doc = (Ok doc', w) ->
     - Z.of_nat (List.length ns) <= i < Z.of_nat (List.length ns) /\
     exists nd, list_index ns i = Some (JObj nd)) /\
  (forall d sc rest ns tops,
     dict_get "scenes" d = Some (JArr (JObj sc :: rest)) ->
     dict_get "nodes" sc = Some (JArr tops) ->
     (1 < List.length tops)%nat ->
     dict_get "nodes" d = Some (JArr ns) ->
     exists doc',
       reorient_scene (JObj d)
       = (Ok doc', [(INFO, "Creating new root node for reorientation.")])).
Proof.
  split; [repeat split; vm_compute; reflexivity |].
  split; [repeat split; vm_compute; reflexivity |].
  split; [repeat split; vm_compute; reflexivity |].
  split; [| split].
  - intros doc tops doc' w Hf Ht H.
    destruct (first_scene_nodes_inv _ _ Hf) as (d & sc & rest & -> & Hs & Hn).
    exists d. apply reorient_scene_inv in H.
    destruct H as [(_ & _ & Hg) | (d0 & sc0 & rest0 & tops0 & E & _ & _ & _ & Hcase)].
    + rewrite (no_valid_scene_passes _ _ _ Hs _ Hn Ht) in Hg. discriminate.
    + inversion E; subst d0.
      destruct Hcase as [(nodes & ? & ? & ? & _ & _ & Hd & _)
                        | (? & ns & _ & _ & Hd & _)]; eauto.
  - intros doc i ns doc' w Hf Hns H.
    destruct (first_scene_nodes_inv _ _ Hf) as (d & sc & rest & -> & Hs & Hn).
    apply reorient_scene_inv in H.
    destruct H as [(_ & _ & Hg) | (d0 & sc0 & rest0 & tops0 & E & Hs0 & Hn0 & _ & Hcase)].
    + rewrite (no_valid_scene_passes _ _ _ Hs _ Hn eq_refl) in Hg. discriminate.
    + inversion E; subst d0. rewrite Hs in Hs0. inversion Hs0; subst sc0 rest0.
      rewrite Hn in Hn0. inversion Hn0; subst tops0.
      destruct Hcase as [(nodes & idx & nd & q & _ & Hidx & Hd & Hroot & _)
                        | (n & ns' & Hlen & Hne & _)].
      * rewrite getitem_first in Hidx. ret_inv Hidx.
        unfold doc_nodes in Hns. rewrite Hd in Hns.
        destruct nodes as [| | | | l |]; try discriminate.
        inversion Hns; subst l.
        cbn in Hroot. apply of_option_pure in Hroot. destruct Hroot as [Hroot _].
        split; [| eauto].
        destruct (list_index_Some _ _ _ Hroot) as [p [Hp _]].
        assert (Hnot : ~ (i < - Z.of_nat (List.length ns) \/ Z.of_nat (List.length ns) <= i)).
        { intros Hout. apply norm_index_None in Hout. congruence. }
        lia.
      * cbn in Hlen. ret_inv Hlen. contradiction Hne. reflexivity.
  - intros d sc rest ns tops Hs Hn Hlen Hd.
    destruct tops as [| t1 [| t2 tops]]; cbn [List.length] in Hlen; try lia.
    eexists. apply (reorient_multi d sc rest Hs ns t1 t2 tops Hn Hd).
Qed.

Lemma C10_reorient_needs_valid_nodes_witness :
  - Z.of_nat (List.length [JObj [("name", JStr "root")]]) <= 0
    < Z.of_nat (List.length [JObj [("name", JStr "root")]]) /\
  exists nd, list_index [JObj [("name", JStr "root")]] 0 = Some (JObj nd).
Proof.
  apply (proj1 (proj2 (proj2 (proj2 (proj2 C10_reorient_needs_valid_nodes))))
           plain_root_doc 0 [JObj [("name", JStr "root")]]
           (JObj [("asset", JObj [("version", JStr "2.0")]);
                  ("scenes", JArr [JObj [("nodes", JArr [JInt 0])]]);
                  ("nodes",
                   JArr [JObj [("name", JStr "root");
                               ("rotation", NINETY_DEG_X_ROTATION)]])])
           []);
    vm_compute; reflexivity.
Defined.

(** C10 as it is worded, "exception-free only when every referenced node
    index is a valid index", does not hold: with the roots 5 and 7 over a
    node sequence of one node the run returns, the two indices being
    copied into the new root and never looked up; and a single root [-1]
    is taken from the end of the sequence. *)
Lemma C10_returns_with_invalid_indices :
  (first_scene_nodes dangling_roots_doc = Some (JArr [JInt 5; JInt 7]) /\
   doc_nodes dangling_roots_doc = Some [JObj [("name", JStr "root")]] /\
   list_index [JObj [("name", JStr "root")]] 5 = None /\
   list_index [JObj [("name", JStr "root")]] 7 = None /\
   reorient_scene dangling_roots_doc
   = (Ok (JObj [("scenes", JArr [JObj [("nodes", JArr [JInt 1])]]);
                ("nodes",
                 JArr [JObj [("name", JStr "root")];
                       JObj [("name", JStr "ReorientedRoot");
                             ("rotation",
                              JArr [JFloat (PrimFloat.sqrt 0.5); JInt 0; JInt 0;
                                    JFloat (PrimFloat.sqrt 0.5)]);
                             ("children", JArr [JInt 5; JInt 7])]])]),
      [(INFO, "Creating new root node for reorientation.")])) /\
  (first_scene_nodes negative_root_doc = Some (JArr [JInt (-1)]) /\
   node_index_ok 1 (JInt (-1)) = false /\
   reorient_scene negative_root_doc
   = ret (JObj [("scenes", JArr [JObj [("nodes", JArr [JInt (-1)])]]);
                ("nodes",
                 JArr [JObj [("name", JStr "root");
                             ("rotation",
                              JArr [JFloat (PrimFloat.sqrt 0.5); JInt 0; JInt 0;
                                    JFloat (PrimFloat.sqrt 0.5)])]])])) /\
  ~ (forall doc tops ns doc' w,
       first_scene_nodes doc = Some (JArr tops) ->
       doc_nodes doc = Some ns ->
       reorient_scene doc = (Ok doc', w) ->
       forallb (node_index_ok (List.length ns)) tops = true).
Proof.
  split; [repeat split; vm_compute; reflexivity |].
  split; [repeat split; vm_compute; reflexivity |].
  intros H.
  specialize (H dangling_roots_doc [JInt 5; JInt 7] [JObj [("name", JStr "root")]]
                _ _ eq_refl eq_refl eq_refl).
  discriminate H.
Qed.

(** ** Well-formed input does not raise *)

Lemma float_of_Z_0 : float_of_Z 0 = ret 0%float.
Proof. vm_compute. reflexivity. Qed.

Lemma finite_number_inv (x : json) :
  finite_number x = true ->
  (exists f, x = JFloat f) \/ (exists z f, x = JInt z /\ float_of_Z z = ret f).
Proof.
  destruct x as [| | [z | f] | | |]; try discriminate; cbn.
  - intros H. right. exists z. unfold float_of_Z in *.
    destruct (is_infinity _); [discriminate |]. eauto.
  - intros _. left. eauto.
Qed.

Ltac arith_step :=
  first
    [ rewrite bind_ret_l; cbv beta
    | rewrite Z.mul_0_r
    | rewrite float_of_Z_0
    | match goal with H : float_of_Z ?z = ret _ |- context [float_of_Z ?z] => rewrite H end
    | progress cbn [num_binop] ].

Lemma multiply_quaternions_ok (q : json) :
  quaternion_ok q = true ->
  exists q', multiply_quaternions q NINETY_DEG_X_ROTATION = ret q'.
Proof.
  destruct q as [| | | | [| a [| b [| c [| d [|]]]]] |]; try discriminate.
  cbn [quaternion_ok]. intros H.
  apply andb_true_iff in H. destruct H as [H Hd].
  apply andb_true_iff in H. destruct H as [H Hc].
  apply andb_true_iff in H. destruct H as [Ha Hb].
  unfold multiply_quaternions, NINETY_DEG_X_ROTATION.
  rewrite !item_0, !item_1, !item_2, !item_3.
  rewrite !lift2_ret.
  destruct (finite_number_inv _ Ha) as [[fa ->] | (za & fa & -> & Ea)];
  destruct (finite_number_inv _ Hb) as [[fb ->] | (zb & fb & -> & Eb)];
  destruct (finite_number_inv _ Hc) as [[fc ->] | (zc & fc & -> & Ec)];
  destruct (finite_number_inv _ Hd) as [[fd ->] | (zd & fd & -> & Ed)];
  cbv [lift2 py_mul py_sub py_add py_arith as_num];
  repeat arith_step; eexists; reflexivity.
Qed.

Lemma reorient_noop (d : dict) :
  no_scene_to_reorient d ->
  reorient_scene (JObj d)
  = (Ok (JObj d), [(WARNING, "No valid scene or nodes found in the glTF file.")]).
Proof.
  intros [Hs | [Hs | (sc & rest & Hs & Hn)]].
  - unfold reorient_scene, no_valid_scene, py_get. rewrite Hs. run. reflexivity.
  - unfold reorient_scene, no_valid_scene, py_get. rewrite Hs. run. reflexivity.
  - apply (reorient_empty_scene d sc rest Hs Hn).
Qed.

Lemma node_index_ok_inv (ns : list json) (t : json) :
  node_index_ok (List.length ns) t = true ->
  exists i n, t = JInt i /\ list_index ns i = Some n /\ In n ns.
Proof.
  destruct t as [| | [i | f] | | |]; try discriminate. cbn.
  intros H. apply andb_true_iff in H. destruct H as [H0 H1].
  apply Z.leb_le in H0. apply Z.ltb_lt in H1.
  destruct (nth_error ns (Z.to_nat i)) as [n |] eqn:Hn.
  - exists i, n. split; [reflexivity |]. split.
    + unfold list_index. rewrite norm_index_nonneg by lia. exact Hn.
    + eapply nth_error_In. exact Hn.
  - apply nth_error_None in Hn. lia.
Qed.

Lemma reorient_well_formed (d : dict) :
  well_formed (JObj d) = true ->
  exists doc1 w, reorient_scene (JObj d) = (Ok doc1, w).
Proof.
  unfold well_formed, node_sequence, scenes_ok.
  destruct (dict_get "nodes" d) as [nodes |] eqn:Hd.
  - destruct nodes as [| | | | ns |]; try discriminate.
    intros H. apply andb_true_iff in H. destruct H as [H _].
    apply andb_true_iff in H. destruct H as [Hnodes Hscenes].
    destruct (dict_get "scenes" d) as [[| | | | scs |] |] eqn:Hs; try discriminate;
      [| rewrite reorient_noop by (left; exact Hs); eauto].
    destruct scs as [| s rest];
      [rewrite reorient_noop by (right; left; exact Hs); eauto |].
    cbn [forallb] in Hscenes. apply andb_true_iff in Hscenes.
    destruct Hscenes as [Hscene _].
    destruct s as [| | | | | sc]; try discriminate. cbn [scene_ok] in Hscene.
    destruct (dict_get "nodes" sc) as [[| | | | tops |] |] eqn:Hn; try discriminate;
      [| rewrite reorient_noop by (right; right; eauto); eauto].
    destruct tops as [| t1 [| t2 tops]].
    + rewrite reorient_noop by (right; right; eauto). eauto.
    + cbn [forallb] in Hscene. apply andb_true_iff in Hscene.
      destruct Hscene as [Ht1 _].
      destruct (node_index_ok_inv _ _ Ht1) as (i & n & -> & Hi & Hin).
      pose proof (proj1 (forallb_forall _ _) Hnodes n Hin) as Hnode.
      clear Hnodes. rename Hnode into Hnodes.
      destruct n as [| | | | | nd]; try discriminate. cbn [node_ok] in Hnodes.
      destruct (dict_get "rotation" nd) as [q |] eqn:Hr.
      * destruct (multiply_quaternions_ok q Hnodes) as [q' Hq].
        destruct (reorient_single_rotated d sc rest Hs ns i nd q q' Hn Hd Hi Hr Hq)
          as [p [_ Hrun]]. eauto.
      * destruct (reorient_single_plain d sc rest Hs ns i nd Hn Hd Hi Hr)
          as [p [_ Hrun]]. eauto.
    + rewrite (reorient_multi d sc rest Hs ns t1 t2 tops Hn Hd). eauto.
  - intros H. apply andb_true_iff in H. destruct H as [H _].
    apply andb_true_iff in H. destruct H as [_ Hscenes].
    destruct (dict_get "scenes" d) as [[| | | | scs |] |] eqn:Hs; try discriminate;
      [| rewrite reorient_noop by (left; exact Hs); eauto].
    destruct scs as [| s rest];
      [rewrite reorient_noop by (right; left; exact Hs); eauto |].
    cbn [forallb] in Hscenes. apply andb_true_iff in Hscenes.
    destruct Hscenes as [Hscene _].
    destruct s as [| | | | | sc]; try discriminate. cbn [scene_ok] in Hscene.
    destruct (dict_get "nodes" sc) as [[| | | | tops |] |] eqn:Hn; try discriminate;
      [| rewrite reorient_noop by (right; right; eauto); eauto].
    destruct tops as [| t1 tops];
      [rewrite reorient_noop by (right; right; eauto); eauto |].
    cbn [forallb] in Hscene. apply andb_true_iff in Hscene.
    destruct Hscene as [Ht1 _].
    destruct t1 as [| | [i | f] | | |]; try discriminate.
    cbn in Ht1. apply andb_true_iff in Ht1. destruct Ht1 as [H0 H1].
    apply Z.leb_le in H0. apply Z.ltb_lt in H1. lia.
Qed.

Lemma modify_gltf_no_reorient (doc : json) (m r : num) (ov : bool) :
  modify_gltf doc m r ov false = modify_materials m r ov doc.
Proof. unfold modify_gltf. apply bind_ret_l. Qed.

Lemma modify_gltf_reorient (doc doc1 : json) (m r : num) (ov : bool)
    (w : list log_record) :
  reorient_scene doc = (Ok doc1, w) ->
  modify_gltf doc m r ov true
  = (fst (modify_materials m r ov doc1),
     (INFO, "Reorienting scene...") :: w ++ snd (modify_materials m r ov doc1)).
Proof.
  intros H. unfold modify_gltf, log. rewrite bind_Ok. cbv beta.
  rewrite H. cbn [fst snd app]. rewrite bind_Ok. reflexivity.
Qed.




(** * Further properties of [gltf-material-modifier.py] *)

(** ** The quaternion product on integers *)

Lemma multiply_quaternions_int (a1 b1 c1 d1 a2 b2 c2 d2 : Z) :
  multiply_quaternions (ints [a1; b1; c1; d1]) (ints [a2; b2; c2; d2])
  = ret (ints [a1*a2 - b1*b2 - c1*c2 - d1*d2;
               a1*b2 + b1*a2 + c1*d2 - d1*c2;
               a1*c2 - b1*d2 + c1*a2 + d1*b2;
               a1*d2 + b1*c2 - c1*b2 + d1*a2]).
Proof.
  unfold multiply_quaternions, ints. cbn [map].
  rewrite !item_0, !item_1, !item_2, !item_3.
  reflexivity.
Qed.

Lemma ints_ext (a b c d a' b' c' d' : Z) :
  a = a' -> b = b' -> c = c' -> d = d' ->
  ret (ints [a; b; c; d]) = ret (ints [a'; b'; c'; d']).
Proof. intros -> -> -> ->. reflexivity. Qed.

(** X1: on integer components the product multiplies the squared norms
    (the four-square identity), so the product of two unit quaternions is a
    unit quaternion, and no renormalisation is needed in exact
    arithmetic. *)
Theorem X1_product_multiplies_norms (a1 b1 c1 d1 a2 b2 c2 d2 : Z) :
  exists a b c d,
    multiply_quaternions (ints [a1; b1; c1; d1]) (ints [a2; b2; c2; d2])
    = ret (ints [a; b; c; d]) /\
    a*a + b*b + c*c + d*d
    = (a1*a1 + b1*b1 + c1*c1 + d1*d1) * (a2*a2 + b2*b2 + c2*c2 + d2*d2).
Proof.
  do 4 eexists. split; [apply multiply_quaternions_int | ring].
Qed.

(** X2: on integer components the product is associative: composing three
    rotations gives the same list whichever pair is multiplied first. *)
Theorem X2_product_associative (a1 b1 c1 d1 a2 b2 c2 d2 a3 b3 c3 d3 : Z) :
  (q12 <- multiply_quaternions (ints [a1; b1; c1; d1]) (ints [a2; b2; c2; d2]) ;;
   multiply_quaternions q12 (ints [a3; b3; c3; d3]))
  = (q23 <- multiply_quaternions (ints [a2; b2; c2; d2]) (ints [a3; b3; c3; d3]) ;;
     multiply_quaternions (ints [a1; b1; c1; d1]) q23).
Proof.
  rewrite !multiply_quaternions_int, !bind_ret_l, !multiply_quaternions_int.
  apply ints_ext; ring.
Qed.

(** X3: the neutral element of the product is the list [[1, 0, 0, 0]], on
    both sides: the scalar part of a quaternion is read at index 0. *)
Theorem X3_neutral_element_is_scalar_first (a b c d : Z) :
  multiply_quaternions (ints [1; 0; 0; 0]) (ints [a; b; c; d]) = ret (ints [a; b; c; d]) /\
  multiply_quaternions (ints [a; b; c; d]) (ints [1; 0; 0; 0]) = ret (ints [a; b; c; d]).
Proof.
  rewrite !multiply_quaternions_int. split; apply ints_ext; ring.
Qed.

Lemma item_ints (zs : list Z) (k : nat) :
  item (ints zs) (Z.of_nat k)
  = match nth_error zs k with
    | Some z => ret (JInt z)
    | None => raise IndexError
    end.
Proof.
  unfold item, ints, py_getitem, as_index, list_index.
  rewrite length_map.
  destruct (nth_error zs k) as [z |] eqn:E.
  - assert (Hk : (k < List.length zs)%nat) by (apply nth_error_Some; congruence).
    rewrite norm_index_nonneg by lia. rewrite Nat2Z.id.
    rewrite nth_error_map, E. reflexivity.
  - apply nth_error_None in E.
    assert (Hn : norm_index (List.length zs) (Z.of_nat k) = None)
      by (apply norm_index_None; lia).
    rewrite Hn. reflexivity.
Qed.

(** X4: on lists of integers the product needs four items on each side and
    reads no more: with fewer than four items in either list it raises
    [IndexError], and items after the fourth are ignored. *)
Theorem X4_product_reads_four_items (zs1 zs2 : list Z) :
  multiply_quaternions (ints zs1) (ints zs2)
  = if (4 <=? List.length zs1)%nat && (4 <=? List.length zs2)%nat
    then multiply_quaternions (ints (firstn 4 zs1)) (ints (firstn 4 zs2))
    else raise IndexError.
Proof.
  unfold multiply_quaternions.
  change 0 with (Z.of_nat 0). change 1 with (Z.of_nat 1).
  change 2 with (Z.of_nat 2). change 3 with (Z.of_nat 3).
  rewrite !item_ints.
  destruct zs1 as [| a1 [| b1 [| c1 [| d1 t1]]]];
    destruct zs2 as [| a2 [| b2 [| c2 [| d2 t2]]]];
    reflexivity.
Qed.

(** ** The scene stage at its edges *)

Lemma list_update_app_last {A} (l : list A) (x y : A) :
  list_update (l ++ [x]) (List.length l) y = l ++ [y].
Proof. induction l as [| a l IH]; cbn; [| rewrite IH]; reflexivity. Qed.

Lemma norm_index_negative (n : nat) (i : Z) :
  - Z.of_nat n <= i < 0 -> norm_index n i = Some (Z.to_nat (i + Z.of_nat n)).
Proof.
  intros [Hlo Hhi]. unfold norm_index.
  destruct (i <? 0) eqn:Hi; [| apply Z.ltb_ge in Hi; lia].
  assert (H0 : (0 <=? i + Z.of_nat n) = true) by (apply Z.leb_le; lia).
  assert (H1 : (i + Z.of_nat n <? Z.of_nat n) = true) by (apply Z.ltb_lt; lia).
  rewrite H0, H1. reflexivity.
Qed.

Lemma reorient_single_product_raises
    (d sc : dict) (rest ns : list json) (i : Z) (nd : dict) (r : json)
    (e : exn) (w : list log_record) :
  dict_get "scenes" d = Some (JArr (JObj sc :: rest)) ->
  dict_get "nodes" sc = Some (JArr [JInt i]) ->
  dict_get "nodes" d = Some (JArr ns) ->
  list_index ns i = Some (JObj nd) ->
  dict_get "rotation" nd = Some r ->
  multiply_quaternions r NINETY_DEG_X_ROTATION = (Raise e, w) ->
  reorient_scene (JObj d)
  = (Raise e, (INFO, "Applying rotation to existing root node.") :: w).
Proof.
  intros Hs Hn Hd Hi Hr Hq.
  unfold reorient_scene.
  rewrite (no_valid_scene_passes d sc rest Hs _ Hn eq_refl). run.
  cbn [Z.of_nat Pos.of_succ_nat Z.eqb Pos.eqb]. run.
  unfold log. rewrite bind_Ok. run. rewrite Hq. reflexivity.
Qed.

(** X5: a negative index of the single root counts from the end of the node
    sequence, as Python list indexing does.  With [-len <= i < 0] and an
    object at position [len + i], that node is the one the run works on:
    without a rotation it gets [[sqrt 0.5, 0, 0, sqrt 0.5]]; with a
    rotation [r] it gets [multiply_quaternions(r, NINETY_DEG_X_ROTATION)]
    when the product returns, and when the product raises the run raises
    the same exception after its log record.  The other nodes stay in
    place. *)
Theorem X5_negative_root_index
    (d sc : dict) (rest ns : list json) (i : Z) (nd : dict) :
  dict_get "scenes" d = Some (JArr (JObj sc :: rest)) ->
  dict_get "nodes" sc = Some (JArr [JInt i]) ->
  dict_get "nodes" d = Some (JArr ns) ->
  - Z.of_nat (List.length ns) <= i < 0 ->
  nth_error ns (Z.to_nat (i + Z.of_nat (List.length ns))) = Some (JObj nd) ->
  (dict_get "rotation" nd = None ->
   reorient_scene (JObj d)
   = ret (JObj (dict_set "nodes"
                  (JArr (list_update ns (Z.to_nat (i + Z.of_nat (List.length ns)))
                           (JObj (dict_set "rotation"
                                    (JArr [JFloat (PrimFloat.sqrt 0.5); JInt 0; JInt 0;
                                           JFloat (PrimFloat.sqrt 0.5)])
                                    nd))))
                  d))) /\
  (forall r q,
     dict_get "rotation" nd = Some r ->
     multiply_quaternions r NINETY_DEG_X_ROTATION = ret q ->
     reorient_scene (JObj d)
     = (Ok (JObj (dict_set "nodes"
                    (JArr (list_update ns (Z.to_nat (i + Z.of_nat (List.length ns)))
                             (JObj (dict_set "rotation" q nd))))
                    d)),
        [(INFO, "Applying rotation to existing root node.")])) /\
  (forall r e w,
     dict_get "rotation" nd = Some r ->
     multiply_quaternions r NINETY_DEG_X_ROTATION = (Raise e, w) ->
     reorient_scene (JObj d)
     = (Raise e, (INFO, "Applying rotation to existing root node.") :: w)).
Proof.
  intros Hs Hn Hd Hi Hnth.
  pose proof (norm_index_negative _ _ Hi) as Hp.
  assert (Hidx : list_index ns i = Some (JObj nd))
    by (unfold list_index; rewrite Hp; exact Hnth).
  split; [| split].
  - intros Hr.
    destruct (reorient_single_plain d sc rest Hs ns i nd Hn Hd Hidx Hr)
      as [p [Hp' Hrun]].
    rewrite Hp in Hp'. inversion Hp'; subst p. exact Hrun.
  - intros r q Hr Hq.
    destruct (reorient_single_rotated d sc rest Hs ns i nd r q Hn Hd Hidx Hr Hq)
      as [p [Hp' Hrun]].
    rewrite Hp in Hp'. inversion Hp'; subst p. exact Hrun.
  - intros r e w Hr Hq.
    exact (reorient_single_product_raises d sc rest ns i nd r e w Hs Hn Hd Hidx Hr Hq).
Qed.

Lemma X5_negative_root_index_witness :
  reorient_scene
    (JObj [("scenes", JArr [JObj [("nodes", JArr [JInt (-1)])]]);
           ("nodes", JArr [JObj [("name", JStr "first")];
                           JObj [("name", JStr "last")]])])
  = ret (JObj (dict_set "nodes"
                 (JArr (list_update [JObj [("name", JStr "first")];
                                     JObj [("name", JStr "last")]]
                          (Z.to_nat (-1 + Z.of_nat
                             (List.length [JObj [("name", JStr "first")];
                                           JObj [("name", JStr "last")]])))
                          (JObj (dict_set "rotation"
                                   (JArr [JFloat (PrimFloat.sqrt 0.5); JInt 0; JInt 0;
                                          JFloat (PrimFloat.sqrt 0.5)])
                                   [("name", JStr "last")]))))
                 [("scenes", JArr [JObj [("nodes", JArr [JInt (-1)])]]);
                  ("nodes", JArr [JObj [("name", JStr "first")];
                                  JObj [("name", JStr "last")]])])) /\
  reorient_scene
    (JObj [("scenes", JArr [JObj [("nodes", JArr [JInt (-1)])]]);
           ("nodes", JArr [JObj [("name", JStr "first")];
                           JObj [("rotation", identity_quaternion)]])])
  = (Ok (JObj (dict_set "nodes"
                 (JArr (list_update [JObj [("name", JStr "first")];
                                     JObj [("rotation", identity_quaternion)]]
                          (Z.to_nat (-1 + Z.of_nat
                             (List.length [JObj [("name", JStr "first")];
                                           JObj [("rotation", identity_quaternion)]])))
                          (JObj (dict_set "rotation"
                                   (JArr [JFloat (- PrimFloat.sqrt 0.5); JFloat 0;
                                          JFloat 0; JFloat (PrimFloat.sqrt 0.5)])
                                   [("rotation", identity_quaternion)]))))
                 [("scenes", JArr [JObj [("nodes", JArr [JInt (-1)])]]);
                  ("nodes", JArr [JObj [("name", JStr "first")];
                                  JObj [("rotation", identity_quaternion)]])])),
     [(INFO, "Applying rotation to existing root node.")]).
Proof.
  split.
  - apply (X5_negative_root_index
             [("scenes", JArr [JObj [("nodes", JArr [JInt (-1)])]]);
              ("nodes", JArr [JObj [("name", JStr "first")];
                              JObj [("name", JStr "last")]])]
             [("nodes", JArr [JInt (-1)])] []
             [JObj [("name", JStr "first")]; JObj [("name", JStr "last")]]
             (-1) [("name", JStr "last")]);
      try reflexivity.
    cbn [List.length]. lia.
  - apply (proj1 (proj2 (X5_negative_root_index
             [("scenes", JArr [JObj [("nodes", JArr [JInt (-1)])]]);
              ("nodes", JArr [JObj [("name", JStr "first")];
                              JObj [("rotation", identity_quaternion)]])]
             [("nodes", JArr [JInt (-1)])] []
             [JObj [("name", JStr "first")]; JObj [("rotation", identity_quaternion)]]
             (-1) [("rotation", identity_quaternion)]
             eq_refl eq_refl eq_refl ltac:(cbn [List.length]; lia) eq_refl))
             identity_quaternion).
    + reflexivity.
    + vm_compute. reflexivity.
Defined.

(** X6: a single root whose index is outside [-len, len) makes
    [reorient_scene] raise [IndexError], before anything is logged. *)
Theorem X6_root_index_out_of_range
    (d sc : dict) (rest ns : list json) (i : Z) :
  dict_get "scenes" d = Some (JArr (JObj sc :: rest)) ->
  dict_get "nodes" sc = Some (JArr [JInt i]) ->
  dict_get "nodes" d = Some (JArr ns) ->
  i < - Z.of_nat (List.length ns) \/ Z.of_nat (List.length ns) <= i ->
  reorient_scene (JObj d) = raise IndexError.
Proof.
  intros Hs Hn Hd Hout.
  assert (Hidx : list_index ns i = None).
  { apply list_index_None. apply norm_index_None. exact Hout. }
  unfold reorient_scene.
  rewrite (no_valid_scene_passes d sc rest Hs _ Hn eq_refl). run.
  cbn [Z.of_nat Pos.of_succ_nat Z.eqb Pos.eqb]. run.
  cbn [py_getitem as_index]. rewrite Hidx. reflexivity.
Qed.

Lemma X6_root_index_out_of_range_witness :
  reorient_scene bad_index_doc = raise IndexError.
Proof.
  apply (X6_root_index_out_of_range
           [("scenes", JArr [JObj [("nodes", JArr [JInt 3])]]);
            ("nodes", JArr [JObj [("name", JStr "root")]])]
           [("nodes", JArr [JInt 3])] [] [JObj [("name", JStr "root")]] 3);
    try reflexivity.
  right. cbn [List.length]. lia.
Defined.

(** X7: when the first scene lists nodes and the document has no top-level
    [nodes], [reorient_scene] raises [KeyError]: at once for a single root,
    and after logging that a new root is created for several roots. *)
Theorem X7_missing_node_sequence
    (d sc : dict) (rest : list json) (t : json) (ts : list json) :
  dict_get "scenes" d = Some (JArr (JObj sc :: rest)) ->
  dict_get "nodes" sc = Some (JArr (t :: ts)) ->
  dict_get "nodes" d = None ->
  reorient_scene (JObj d)
  = (Raise KeyError,
     match ts with
     | [] => []
     | _ :: _ => [(INFO, "Creating new root node for reorientation.")]
     end).
Proof.
  intros Hs Hn Hd. unfold reorient_scene.
  rewrite (no_valid_scene_passes d sc rest Hs _ Hn eq_refl).
  destruct ts as [| t2 ts]; run.
  - cbn [Z.of_nat Pos.of_succ_nat Z.eqb Pos.eqb]. run. reflexivity.
  - replace (Z.of_nat (S (S (List.length ts))) =? 1) with false
      by (symmetry; apply Z.eqb_neq; lia).
    unfold log. rewrite bind_Ok. run. reflexivity.
Qed.

Lemma X7_missing_node_sequence_witness :
  reorient_scene missing_nodes_multi_doc
  = (Raise KeyError, [(INFO, "Creating new root node for reorientation.")]).
Proof.
  apply (X7_missing_node_sequence
           [("scenes", JArr [JObj [("nodes", JArr [JInt 0; JInt 1])]])]
           [("nodes", JArr [JInt 0; JInt 1])] [] (JInt 0) [JInt 1]);
    reflexivity.
Defined.

(** X8: applied twice to a scene with several roots, [reorient_scene]
    creates one root only.  The second application finds the new root as
    the single root and multiplies its rotation by the fixed rotation: the
    node sequence keeps the length it got from the first application, and
    the scene still names the one new root. *)
Theorem X8_second_reorient_reuses_new_root
    (d sc : dict) (rest ns tops : list json) :
  dict_get "scenes" d = Some (JArr (JObj sc :: rest)) ->
  dict_get "nodes" sc = Some (JArr tops) ->
  (1 < List.length tops)%nat ->
  dict_get "nodes" d = Some (JArr ns) ->
  exists doc1 doc2 q,
    reorient_scene (JObj d)
      = (Ok doc1, [(INFO, "Creating new root node for reorientation.")]) /\
    reorient_scene doc1
      = (Ok doc2, [(INFO, "Applying rotation to existing root node.")]) /\
    multiply_quaternions NINETY_DEG_X_ROTATION NINETY_DEG_X_ROTATION = ret q /\
    doc_nodes doc2
      = Some (ns ++ [JObj [("name", JStr "ReorientedRoot");
                           ("rotation", q);
                           ("children", JArr tops)]]) /\
    first_scene_nodes doc2 = Some (JArr [JInt (Z.of_nat (List.length ns))]).
Proof.
  intros Hs Hn Hlen Hd.
  destruct tops as [| t1 [| t2 tops]]; cbn [List.length] in Hlen; try lia.
  pose proof (reorient_multi d sc rest Hs ns t1 t2 tops Hn Hd) as Hrun1.
  set (sc1 := dict_set "nodes" (JArr [JInt (Z.of_nat (List.length ns))]) sc) in *.
  set (d0 := dict_set "scenes" (JArr (JObj sc1 :: rest)) d) in *.
  set (root := reoriented_root (JArr (t1 :: t2 :: tops))) in *.
  set (d1 := dict_set "nodes" (JArr (ns ++ [root])) d0) in *.
  assert (Hs1 : dict_get "scenes" d1 = Some (JArr (JObj sc1 :: rest))).
  { unfold d1, d0. rewrite dict_get_set_ne by discriminate. apply dict_get_set_eq. }
  assert (Hn1 : dict_get "nodes" sc1
                = Some (JArr [JInt (Z.of_nat (List.length ns))]))
    by apply dict_get_set_eq.
  assert (Hd1 : dict_get "nodes" d1 = Some (JArr (ns ++ [root])))
    by apply dict_get_set_eq.
  assert (Hq : exists q,
    multiply_quaternions NINETY_DEG_X_ROTATION NINETY_DEG_X_ROTATION = ret q).
  { eexists. vm_compute. reflexivity. }
  destruct Hq as [q Hq].
  destruct (reorient_single_rotated d1 sc1 rest Hs1 (ns ++ [root])
              (Z.of_nat (List.length ns))
              [("name", JStr "ReorientedRoot");
               ("rotation", NINETY_DEG_X_ROTATION);
               ("children", JArr (t1 :: t2 :: tops))]
              NINETY_DEG_X_ROTATION q Hn1 Hd1
              (list_index_app_last ns root) eq_refl Hq)
    as [p [Hp Hrun2]].
  assert (Ep : p = List.length ns).
  { rewrite norm_index_nonneg in Hp.
    - rewrite Nat2Z.id in Hp. congruence.
    - rewrite length_app. cbn [List.length]. lia. }
  subst p. rewrite list_update_app_last in Hrun2.
  exists (JObj d1). eexists. exists q.
  split; [exact Hrun1 |]. split; [exact Hrun2 |]. split; [exact Hq |].
  split.
  - unfold doc_nodes. rewrite dict_get_set_eq. reflexivity.
  - unfold first_scene_nodes. rewrite dict_get_set_ne by discriminate.
    rewrite Hs1. exact Hn1.
Qed.

Lemma X8_second_reorient_reuses_new_root_witness :
  exists doc1 doc2 q,
    reorient_scene
      (JObj [("scenes", JArr [JObj [("nodes", JArr [JInt 0; JInt 1])]]);
             ("nodes", JArr [JObj []; JObj []])])
      = (Ok doc1, [(INFO, "Creating new root node for reorientation.")]) /\
    reorient_scene doc1
      = (Ok doc2, [(INFO, "Applying rotation to existing root node.")]) /\
    multiply_quaternions NINETY_DEG_X_ROTATION NINETY_DEG_X_ROTATION = ret q /\
    doc_nodes doc2
      = Some ([JObj []; JObj []]
              ++ [JObj [("name", JStr "ReorientedRoot");
                        ("rotation", q);
                        ("children", JArr [JInt 0; JInt 1])]]) /\
    first_scene_nodes doc2
      = Some (JArr [JInt (Z.of_nat (List.length [JObj []; JObj []]))]).
Proof.
  apply (X8_second_reorient_reuses_new_root
           [("scenes", JArr [JObj [("nodes", JArr [JInt 0; JInt 1])]]);
            ("nodes", JArr [JObj []; JObj []])]
           [("nodes", JArr [JInt 0; JInt 1])] [] [JObj []; JObj []]
           [JInt 0; JInt 1]);
    try reflexivity.
  cbn [List.length]. lia.
Defined.

(** ** The material stage, run again and run with the scene stage *)

(** X9: the clamp keeps its result within [0, 1] and is idempotent: the
    result is never below [0] nor above [1], for every number (the
    infinities and NaN included), and clamping it again changes nothing. *)
Theorem X9_clamp_range_and_idempotence (v : num) :
  num_ltb (clamp01 v) (NInt 0) = false /\
  num_gtb (clamp01 v) (NInt 1) = false /\
  clamp01 (clamp01 v) = clamp01 v.
Proof.
  destruct (clamp01_cases v) as [E | [E | (E & Hgt & Hlt)]]; rewrite E.
  - repeat split; reflexivity.
  - repeat split; reflexivity.
  - unfold num_gtb, num_ltb in *.
    destruct (num_cmp v (NInt 0)) as [[| |] |]; try discriminate.
    destruct (num_cmp v (NInt 1)) as [[| |] |]; try discriminate.
    repeat split. exact E.
Qed.

Lemma set_factor_fixed (k : string) (v : num) (ov : bool) (p : dict) (x : json) :
  dict_get k p = Some x ->
  (ov = true -> x = JNum (clamp01 v)) ->
  set_factor k v ov p = p.
Proof.
  intros Hk Hov. unfold set_factor. rewrite Hk.
  destruct ov; [| reflexivity].
  apply dict_set_same. rewrite Hk, (Hov eq_refl). reflexivity.
Qed.

Lemma factor_after_override (k : string) (v : num) (p : dict) :
  factor_after k v true p = JNum (clamp01 v).
Proof. unfold factor_after. destruct (dict_get k p); reflexivity. Qed.

Section MaterialStageAgain.

Variables (metallic roughness : num) (override : bool).

Let patch := patch_material metallic roughness override.

Lemma patch_material_again (mat : json) :
  material_ok mat = true ->
  exists mat', patch mat = ret mat' /\ patch mat' = ret mat'.
Proof.
  destruct mat as [| | | | | fields]; try discriminate.
  unfold material_ok. destruct (existing_pbr fields) as [pbr |] eqn:Hp;
    [intros _ | discriminate].
  set (p1 := set_factor "metallicFactor" metallic override pbr).
  set (p2 := set_factor "roughnessFactor" roughness override p1).
  exists (JObj (dict_set "pbrMetallicRoughness" (JObj p2) fields)).
  split; [apply patch_material_run; exact Hp |].
  unfold patch.
  rewrite (patch_material_run metallic roughness override _ p2)
    by (unfold existing_pbr; rewrite dict_get_set_eq; reflexivity).
  assert (E1 : set_factor "metallicFactor" metallic override p2 = p2).
  { apply (set_factor_fixed _ _ _ _
             (factor_after "metallicFactor" metallic override pbr)).
    - unfold p2. rewrite set_factor_get_ne by discriminate.
      apply set_factor_get_eq.
    - intros ->. apply factor_after_override. }
  assert (E2 : set_factor "roughnessFactor" roughness override p2 = p2).
  { apply (set_factor_fixed _ _ _ _
             (factor_after "roughnessFactor" roughness override p1)).
    - apply set_factor_get_eq.
    - intros ->. apply factor_after_override. }
  rewrite E1, E2, dict_set_set. reflexivity.
Qed.

Lemma for_each_patch_again (ms : list json) :
  Forall (fun material => material_ok material = true) ms ->
  exists ms', for_each patch ms = ret ms' /\ for_each patch ms' = ret ms'.
Proof.
  intros Hok. induction Hok as [| x l Hx Hl IH]; cbn [for_each].
  - exists []. split; reflexivity.
  - destruct (patch_material_again x Hx) as [x' [Ex Ex']].
    destruct IH as [l' [El El']].
    exists (x' :: l'). cbn [for_each].
    rewrite Ex, Ex', !bind_ret_l, El, El', !bind_ret_l. split; reflexivity.
Qed.

Lemma modify_materials_list (d : dict) (ms ms' : list json) :
  dict_get "materials" d = Some (JArr ms) ->
  for_each patch ms = ret ms' ->
  modify_materials metallic roughness override (JObj d)
  = (Ok (JObj (dict_set "materials" (JArr ms') d)),
     [(INFO, "Modifying materials...")]).
Proof.
  intros Hm Hrun. unfold modify_materials. run.
  unfold log. rewrite bind_Ok. run. cbn [py_iter]. run.
  fold patch. rewrite Hrun. run. reflexivity.
Qed.

(** A material that has both factors is returned as it is when nothing is
    overridden. *)
Lemma patch_material_complete (mat : json) :
  override = false ->
  has_both_factors mat = true ->
  patch mat = ret mat.
Proof.
  intros Hov. destruct mat as [| | | | | fields]; try discriminate.
  cbn [has_both_factors].
  destruct (dict_get "pbrMetallicRoughness" fields) as [[| | | | | pbr] |] eqn:Hp;
    try discriminate.
  destruct (dict_get "metallicFactor" pbr) as [vm |] eqn:Hm; [| discriminate].
  destruct (dict_get "roughnessFactor" pbr) as [vr |] eqn:Hr; [| discriminate].
  intros _. unfold patch.
  rewrite (patch_material_run metallic roughness override fields pbr)
    by (unfold existing_pbr; rewrite Hp; reflexivity).
  rewrite (set_factor_fixed "metallicFactor" _ _ pbr vm Hm)
    by (rewrite Hov; discriminate).
  rewrite (set_factor_fixed "roughnessFactor" _ _ pbr vr Hr)
    by (rewrite Hov; discriminate).
  rewrite (dict_set_same _ _ _ Hp). reflexivity.
Qed.

Lemma for_each_patch_complete (ms : list json) :
  override = false ->
  Forall (fun material => has_both_factors material = true) ms ->
  for_each patch ms = ret ms.
Proof.
  intros Hov Hall. induction Hall as [| x l Hx Hl IH]; cbn [for_each].
  - reflexivity.
  - rewrite (patch_material_complete x Hov Hx), bind_ret_l, IH, bind_ret_l.
    reflexivity.
Qed.

(** The outcome of the stage depends on the document through its
    [materials] field only, and the stage leaves every other field as it
    is. *)
Lemma modify_materials_same_field (d d' : dict) (doc : json) (w : list log_record) :
  dict_get "materials" d' = dict_get "materials" d ->
  modify_materials metallic roughness override (JObj d) = (Ok doc, w) ->
  exists doc',
    modify_materials metallic roughness override (JObj d') = (Ok doc', w) /\
    doc_field "materials" doc' = doc_field "materials" doc /\
    forall k, k <> "materials" -> doc_field k doc' = dict_get k d'.
Proof.
  intros Hsame H. unfold modify_materials in *.
  rewrite contains_key in *. rewrite Hsame.
  destruct (dict_get "materials" d) as [mats |] eqn:Hm.
  - rewrite bind_ret_l in *. unfold log in *. rewrite bind_Ok in *.
    rewrite (getitem_key d' _ _ Hsame). rewrite (getitem_key d _ _ Hm) in H.
    rewrite bind_ret_l in *.
    destruct (py_iter mats) as [[items | e] w1] eqn:Hit;
      [| cbn in H; discriminate].
    rewrite bind_Ok in *.
    destruct (for_each (patch_material metallic roughness override) items)
      as [[items' | e] w2] eqn:Hrun; [| cbn in H; discriminate].
    rewrite bind_Ok in *.
    destruct mats as [| | | | ms |]; cbn [fst snd ret app store_item] in *;
      inversion H; subst; clear H;
      (eexists; split; [reflexivity |]); cbn [doc_field];
      rewrite ?dict_get_set_eq, ?Hsame;
      (split; [try rewrite Hm; reflexivity |]);
      intros k Hk; rewrite ?dict_get_set_ne by assumption; reflexivity.
  - rewrite bind_ret_l in *. unfold log in *. rewrite bind_Ok in *.
    cbn [fst snd ret app] in *. inversion H; subst; clear H.
    eexists. split; [reflexivity |]. cbn [doc_field].
    split; [rewrite Hsame, Hm; reflexivity | reflexivity].
Qed.

End MaterialStageAgain.

(** X10: the material stage is idempotent.  On a document whose materials
    are objects (with [pbrMetallicRoughness] absent or an object), a second
    run with the same factors and flag returns the document of the first
    run unchanged. *)
Theorem X10_material_stage_idempotent (d : dict) (ms : list json)
    (metallic roughness : num) (override : bool) :
  dict_get "materials" d = Some (JArr ms) ->
  Forall (fun material => material_ok material = true) ms ->
  exists doc',
    modify_gltf (JObj d) metallic roughness override false
      = (Ok doc', [(INFO, "Modifying materials...")]) /\
    modify_gltf doc' metallic roughness override false
      = (Ok doc', [(INFO, "Modifying materials...")]).
Proof.
  intros Hm Hok.
  destruct (for_each_patch_again metallic roughness override ms Hok)
    as [ms' [Hrun Hrun']].
  exists (JObj (dict_set "materials" (JArr ms') d)).
  rewrite !modify_gltf_no_reorient. split.
  - apply (modify_materials_list metallic roughness override d ms ms' Hm Hrun).
  - rewrite (modify_materials_list metallic roughness override _ ms' ms'
               (dict_get_set_eq _ _ _) Hrun').
    rewrite dict_set_set. reflexivity.
Qed.

Lemma X10_material_stage_idempotent_witness :
  exists doc',
    modify_gltf sample_doc (NFloat 0.25) (NFloat 5) true false
      = (Ok doc', [(INFO, "Modifying materials...")]) /\
    modify_gltf doc' (NFloat 0.25) (NFloat 5) true false
      = (Ok doc', [(INFO, "Modifying materials...")]).
Proof.
  unfold sample_doc.
  eapply X10_material_stage_idempotent.
  - reflexivity.
  - repeat constructor.
Defined.

(** X11: without [override], a document whose materials all carry both
    factors already comes back unchanged from the material stage: no factor
    is touched, not even one that lies outside [0, 1]. *)
Theorem X11_complete_materials_are_kept (d : dict) (ms : list json)
    (metallic roughness : num) :
  dict_get "materials" d = Some (JArr ms) ->
  Forall (fun material => has_both_factors material = true) ms ->
  modify_gltf (JObj d) metallic roughness false false
  = (Ok (JObj d), [(INFO, "Modifying materials...")]).
Proof.
  intros Hm Hall. rewrite modify_gltf_no_reorient.
  rewrite (modify_materials_list metallic roughness false d ms ms Hm
             (for_each_patch_complete metallic roughness false ms eq_refl Hall)).
  rewrite (dict_set_same _ _ _ Hm). reflexivity.
Qed.

Lemma X11_complete_materials_are_kept_witness :
  modify_gltf
    (JObj [("materials",
            JArr [JObj [("pbrMetallicRoughness",
                         JObj [("metallicFactor", JInt 7);
                               ("roughnessFactor", JFloat 0.5)])]])])
    (NFloat 0.25) (NFloat 0.25) false false
  = (Ok (JObj [("materials",
                JArr [JObj [("pbrMetallicRoughness",
                             JObj [("metallicFactor", JInt 7);
                                   ("roughnessFactor", JFloat 0.5)])]])]),
     [(INFO, "Modifying materials...")]).
Proof.
  apply (X11_complete_materials_are_kept
           [("materials",
             JArr [JObj [("pbrMetallicRoughness",
                          JObj [("metallicFactor", JInt 7);
                                ("roughnessFactor", JFloat 0.5)])]])]
           [JObj [("pbrMetallicRoughness",
                   JObj [("metallicFactor", JInt 7);
                         ("roughnessFactor", JFloat 0.5)])]]).
  - reflexivity.
  - repeat constructor.
Defined.

(** X12: the two stages do not interfere.  When [reorient_scene] alone
    returns for a document and the run without [reorient] returns for it,
    the run with [reorient] returns too; its log is the two logs in order,
    its [materials] are those of the run without [reorient], and its
    [scenes] and [nodes] are those [reorient_scene] alone produces. *)
Theorem X12_stages_are_independent (d : dict) (metallic roughness : num)
    (override : bool) (doc1 docA : json) (w1 wA : list log_record) :
  reorient_scene (JObj d) = (Ok doc1, w1) ->
  modify_gltf (JObj d) metallic roughness override false = (Ok docA, wA) ->
  exists docB,
    modify_gltf (JObj d) metallic roughness override true
      = (Ok docB, (INFO, "Reorienting scene...") :: w1 ++ wA) /\
    doc_field "materials" docB = doc_field "materials" docA /\
    doc_field "scenes" docB = doc_field "scenes" doc1 /\
    doc_field "nodes" docB = doc_field "nodes" doc1.
Proof.
  intros Hre Hmat. rewrite modify_gltf_no_reorient in Hmat.
  rewrite (modify_gltf_reorient _ _ metallic roughness override _ Hre).
  assert (Hdoc1 : exists d1,
    doc1 = JObj d1 /\ dict_get "materials" d1 = dict_get "materials" d).
  { destruct (reorient_scene_frame _ _ _ Hre)
      as [-> | (d0 & d1 & E & -> & _ & Hsame & _)].
    - exists d. auto.
    - inversion E; subst d0. exists d1. split; [reflexivity |].
      apply Hsame. cbn. intros [F | [F | []]]; discriminate. }
  destruct Hdoc1 as (d1 & -> & Hsame).
  destruct (modify_materials_same_field metallic roughness override d d1 docA wA
              Hsame Hmat) as (docB & HB & Hm & Hother).
  exists docB. rewrite HB. cbn [fst snd].
  split; [reflexivity |]. split; [exact Hm |].
  split; apply Hother; discriminate.
Qed.

Lemma X12_stages_are_independent_witness :
  exists docB,
    modify_gltf sample_doc (NFloat 0.25) (NFloat 5) false true
      = (Ok docB,
         (INFO, "Reorienting scene...")
         :: [(INFO, "Creating new root node for reorientation.")]
            ++ [(INFO, "Modifying materials...")]) /\
    doc_field "materials" docB = doc_field "materials" sample_doc_patched /\
    doc_field "scenes" docB = doc_field "scenes" sample_doc_reoriented /\
    doc_field "nodes" docB = doc_field "nodes" sample_doc_reoriented.
Proof.
  unfold sample_doc.
  apply (X12_stages_are_independent _ (NFloat 0.25) (NFloat 5) false
           sample_doc_reoriented sample_doc_patched
           [(INFO, "Creating new root node for reorientation.")]
           [(INFO, "Modifying materials...")]);
    vm_compute; reflexivity.
Defined.

(** * Properties of [png_to_h.py] *)

Section PngFacts.
Local Open Scope nat_scope.
Import PngToH.

Lemma map_nth_seq {A} (l : list A) (d : A) (i m : nat) :
  i + m <= List.length l ->
  map (fun j => nth j l d) (seq i m) = firstn m (skipn i l).
Proof.
  revert i l. induction m as [| m IH]; intros i l H; cbn [seq map].
  - reflexivity.
  - rewrite IH by lia.
    assert (Hi : i < List.length l) by lia.
    rewrite <- (firstn_skipn i l) at 1.
    rewrite app_nth2 by (rewrite length_firstn; lia).
    rewrite length_firstn, Nat.min_l, Nat.sub_diag by lia.
    destruct (skipn i l) as [| x t] eqn:E.
    + apply (f_equal (@List.length A)) in E. rewrite length_skipn in E. cbn in E. lia.
    + cbn [nth firstn]. f_equal.
      change (S i) with (1 + i). rewrite <- skipn_skipn, E. reflexivity.
Qed.

Lemma row_items (png_data : list Byte.byte) (i : nat) :
  i <= List.length png_data ->
  map (fun j => nth j png_data Byte.x00)
      (Py.range i (Nat.min (i + 19) (List.length png_data)))
  = row_bytes png_data i.
Proof.
  intros Hi. unfold Py.range, row_bytes. rewrite map_nth_seq by lia.
  destruct (Nat.le_gt_cases (i + 19) (List.length png_data)) as [H | H].
  - rewrite Nat.min_l by lia. f_equal. lia.
  - rewrite Nat.min_r by lia.
    rewrite !firstn_all2; try reflexivity; rewrite length_skipn; lia.
Qed.

Lemma firstn_plus {A} (a b : nat) (l : list A) :
  firstn (a + b) l = firstn a l ++ firstn b (skipn a l).
Proof.
  revert l. induction a as [| a IH]; intros [| x l]; cbn; try reflexivity.
  - rewrite firstn_nil. reflexivity.
  - rewrite IH. reflexivity.
Qed.

Lemma concat_row_bytes (png_data : list Byte.byte) (c : nat) :
  List.concat (map (fun k => row_bytes png_data (k * 19)) (seq 0 c))
  = firstn (c * 19) png_data.
Proof.
  induction c as [| c IH].
  - reflexivity.
  - rewrite seq_S, map_app, List.concat_app, IH. cbn [map List.concat plus].
    rewrite app_nil_r. unfold row_bytes.
    replace (S c * 19) with (c * 19 + 19) by lia.
    rewrite firstn_plus. reflexivity.
Qed.

Lemma range_step_19 (n : nat) :
  Py.range_step n 19 = map (fun k => k * 19) (seq 0 ((n + 18) / 19)).
Proof.
  unfold Py.range_step. replace (n + 19 - 1) with (n + 18) by lia. reflexivity.
Qed.

Lemma ceil19 (n : nat) : n <= (n + 18) / 19 * 19 < n + 19.
Proof.
  pose proof (Nat.div_mod_eq (n + 18) 19) as E.
  pose proof (Nat.mod_upper_bound (n + 18) 19) as B. lia.
Qed.

Lemma rows_partition (png_data : list Byte.byte) :
  List.concat (map (row_bytes png_data) (Py.range_step (List.length png_data) 19)) = png_data /\
  List.length (Py.range_step (List.length png_data) 19) = (List.length png_data + 18) / 19 /\
  Forall (fun i => i < List.length png_data /\ 1 <= List.length (row_bytes png_data i) <= 19)
    (Py.range_step (List.length png_data) 19).
Proof.
  rewrite range_step_19. split; [| split].
  - rewrite map_map, concat_row_bytes. apply firstn_all2.
    pose proof (ceil19 (List.length png_data)). lia.
  - rewrite length_map, length_seq. reflexivity.
  - apply Forall_forall. intros i Hi. apply in_map_iff in Hi.
    destruct Hi as (k & <- & Hk). apply in_seq in Hk.
    pose proof (ceil19 (List.length png_data)) as Hc.
    assert (Hlt : k * 19 < List.length png_data) by nia.
    split; [exact Hlt |].
    unfold row_bytes. rewrite length_firstn, length_skipn. lia.
Qed.

Lemma str_app_assoc (a b c : string) :
  ((a ++ b) ++ c)%string = (a ++ (b ++ c))%string.
Proof. induction a as [| x a IH]; cbn; [| rewrite IH]; reflexivity. Qed.

Lemma str_app_nil_r (a : string) : (a ++ "")%string = a.
Proof. induction a as [| x a IH]; cbn; [| rewrite IH]; reflexivity. Qed.

Lemma str_length_app (a b : string) :
  String.length (a ++ b) = String.length a + String.length b.
Proof. induction a as [| x a IH]; cbn; [| rewrite IH]; reflexivity. Qed.

Lemma hex_bytes_token (b : Byte.byte) (s : string) :
  hex_bytes (hex_token b ++ s) = b :: hex_bytes s.
Proof. destruct b; reflexivity. Qed.

Lemma hex_token_length (b : Byte.byte) : String.length (hex_token b) = 4.
Proof. reflexivity. Qed.

Lemma hex_bytes_sep (s : string) : hex_bytes (", " ++ s) = hex_bytes s.
Proof. reflexivity. Qed.

Lemma hex_bytes_indent (s : string) : hex_bytes ("    " ++ s) = hex_bytes s.
Proof. reflexivity. Qed.

Lemma hex_bytes_row_text (bs : list Byte.byte) (s : string) :
  hex_bytes (Py.join ", " (map hex_token bs) ++ "," ++ Py.nl ++ s) = bs ++ hex_bytes s.
Proof.
  induction bs as [| b bs IH].
  - reflexivity.
  - destruct bs as [| b2 bs].
    + cbn [map Py.join]. rewrite hex_bytes_token. reflexivity.
    + change (Py.join ", " (map hex_token (b :: b2 :: bs)))
        with (hex_token b ++ ", " ++ Py.join ", " (map hex_token (b2 :: bs)))%string.
      rewrite !str_app_assoc, hex_bytes_token.
      rewrite hex_bytes_sep, IH. reflexivity.
Qed.

Lemma row_text (png_data : list Byte.byte) (i : nat) :
  i <= List.length png_data ->
  row png_data i
  = ("    " ++ Py.join ", " (map hex_token (row_bytes png_data i)) ++ "," ++ Py.nl)%string.
Proof.
  intros Hi. unfold row. rewrite <- (row_items png_data i Hi), map_map. reflexivity.
Qed.

Lemma hex_bytes_row (png_data : list Byte.byte) (i : nat) (s : string) :
  i <= List.length png_data ->
  hex_bytes (row png_data i ++ s) = row_bytes png_data i ++ hex_bytes s.
Proof.
  intros Hi. rewrite (row_text png_data i Hi), !str_app_assoc, hex_bytes_indent.
  apply hex_bytes_row_text.
Qed.

Lemma fold_left_rows (f : nat -> string) (l : list nat) (init : string) :
  fold_left (fun acc i => (acc ++ f i)%string) l init
  = (init ++ fold_right (fun i acc => (f i ++ acc)%string) "" l)%string.
Proof.
  revert init. induction l as [| i l IH]; intros init; cbn [fold_left fold_right].
  - rewrite str_app_nil_r. reflexivity.
  - rewrite IH, str_app_assoc. reflexivity.
Qed.

Lemma hex_bytes_rows (png_data : list Byte.byte) (l : list nat) :
  Forall (fun i => i <= List.length png_data) l ->
  hex_bytes (fold_right (fun i acc => (row png_data i ++ acc)%string) "" l)
  = List.concat (map (row_bytes png_data) l).
Proof.
  intros H. induction H as [| i l Hi Hl IH]; cbn [fold_right map List.concat].
  - reflexivity.
  - rewrite (hex_bytes_row png_data i _ Hi), IH. reflexivity.
Qed.

Lemma join_tokens_length (bs : list Byte.byte) :
  bs <> [] -> String.length (Py.join ", " (map hex_token bs)) + 2 = 6 * List.length bs.
Proof.
  induction bs as [| b bs IH]; [congruence | intros _].
  destruct bs as [| b2 bs].
  - reflexivity.
  - change (Py.join ", " (map hex_token (b :: b2 :: bs)))
      with (hex_token b ++ ", " ++ Py.join ", " (map hex_token (b2 :: bs)))%string.
    rewrite !str_length_app, hex_token_length.
    assert (IH' := IH ltac:(discriminate)). cbn [List.length String.length] in *. lia.
Qed.

Lemma concat_empty_sep (l : list string) :
  String.concat "" l = fold_right append "" l.
Proof.
  induction l as [| x l IH]; [reflexivity |].
  cbn [fold_right]. rewrite <- IH. destruct l as [| y l].
  - cbn. rewrite str_app_nil_r. reflexivity.
  - reflexivity.
Qed.

Lemma rows_text (png_data : list Byte.byte) (l : list nat) :
  Forall (fun i => i <= List.length png_data) l ->
  fold_right (fun i acc => (row png_data i ++ acc)%string) "" l
  = String.concat ""
      (map (fun slice =>
              ("    " ++ Py.join ", " (map hex_token slice) ++ "," ++ Py.nl)%string)
         (map (row_bytes png_data) l)).
Proof.
  intros H. rewrite concat_empty_sep.
  induction H as [| i l Hi Hl IH]; cbn [fold_right map]; [reflexivity |].
  rewrite IH, (row_text png_data i Hi). reflexivity.
Qed.

(** X13.  The text that [png_to_h] writes has, between the declaration line
    and the closing line, one line for every started group of 19 bytes,
    [ceil(len(png_data) / 19)] lines in all and in the order of the data.
    Line [k] is four spaces, the constants [0xhh] of the slice
    [png_data[19k : 19k + 19]] separated by [", "], a comma and a newline.
    The slices together are exactly the data; each holds between 1 and 19
    bytes, so a line is at most 118 characters long. *)
Theorem X13_rows_partition_the_data (png_data : list Byte.byte) (header_file : string) :
  let slices :=
    map (fun k => firstn 19 (skipn (19 * k) png_data))
      (seq 0 ((List.length png_data + 18) / 19)) in
  let line := fun slice : list Byte.byte =>
    ("    " ++ Py.join ", " (map hex_token slice) ++ "," ++ Py.nl)%string in
  png_to_h png_data header_file
  = (("unsigned char " ++ Py.drop_last 2 header_file ++ "[] = {" ++ Py.nl)
     ++ String.concat "" (map line slices)
     ++ ("};" ++ Py.nl ++ "unsigned int " ++ Py.drop_last 2 header_file ++ "_len = "
         ++ Py.str_of_nat (List.length png_data) ++ ";" ++ Py.nl))%string /\
  List.length slices = (List.length png_data + 18) / 19 /\
  List.concat slices = png_data /\
  Forall (fun slice =>
            1 <= List.length slice <= 19 /\
            String.length (line slice) = 6 * List.length slice + 4 /\
            String.length (line slice) <= 118)
    slices.
Proof.
  cbv zeta. destruct (rows_partition png_data) as (Hc & Hl & H).
  assert (E : map (fun k => firstn 19 (skipn (19 * k) png_data))
                (seq 0 ((List.length png_data + 18) / 19))
              = map (row_bytes png_data) (Py.range_step (List.length png_data) 19)).
  { rewrite range_step_19, map_map. apply map_ext. intros k.
    unfold row_bytes. rewrite (Nat.mul_comm 19 k). reflexivity. }
  rewrite E. split; [| split; [| split]].
  - unfold png_to_h. rewrite fold_left_rows, rows_text, !str_app_assoc; [reflexivity |].
    eapply Forall_impl; [| exact H]. intros i Hi. cbn beta in Hi. lia.
  - rewrite length_map. exact Hl.
  - exact Hc.
  - apply Forall_map. eapply Forall_impl; [| exact H]. intros i [Hi [Hlo Hhi]].
    assert (Hne : row_bytes png_data i <> []).
    { intros E0. rewrite E0 in Hlo. cbn in Hlo. lia. }
    pose proof (join_tokens_length _ Hne) as Hj.
    assert (El : String.length
                   ("    " ++ Py.join ", " (map hex_token (row_bytes png_data i))
                      ++ "," ++ Py.nl)
                 = 6 * List.length (row_bytes png_data i) + 4).
    { rewrite !str_length_app. cbn [String.length Py.nl]. lia. }
    repeat split; [exact Hlo | exact Hhi | exact El | lia].
Qed.

(** X14.  The text that [png_to_h] writes is the declaration line with
    the name [header_file[:-2]], the rows, the closing line and the length
    line.  Reading the constants [0xhh] of the rows in order gives back
    the bytes of the input, and the number printed in the length line
    reads back as [len(png_data)]. *)
Theorem X14_header_round_trip (png_data : list Byte.byte) (header_file : string) :
  exists body,
    png_to_h png_data header_file
    = (("unsigned char " ++ Py.drop_last 2 header_file ++ "[] = {" ++ Py.nl)
       ++ body
       ++ ("};" ++ Py.nl ++ "unsigned int " ++ Py.drop_last 2 header_file ++ "_len = "
           ++ Py.str_of_nat (List.length png_data) ++ ";" ++ Py.nl))%string /\
    hex_bytes body = png_data /\
    option_map Nat.of_uint
      (DecimalString.NilEmpty.uint_of_string (Py.str_of_nat (List.length png_data)))
    = Some (List.length png_data).
Proof.
  exists (fold_right (fun i acc => (row png_data i ++ acc)%string) ""
            (Py.range_step (List.length png_data) 19)).
  split; [| split].
  - unfold png_to_h. rewrite fold_left_rows, !str_app_assoc. reflexivity.
  - rewrite hex_bytes_rows.
    + apply rows_partition.
    + destruct (rows_partition png_data) as (_ & _ & H).
      eapply Forall_impl; [| exact H]. intros i Hi. cbn beta in Hi. lia.
  - unfold Py.str_of_nat. rewrite DecimalString.NilEmpty.usu. cbn [option_map].
    rewrite DecimalNat.Unsigned.of_to. reflexivity.
Qed.

Lemma substring_prefix (a b : string) :
  substring 0 (String.length a) (a ++ b) = a.
Proof.
  induction a as [| c a IH]; cbn.
  - destruct b; reflexivity.
  - rewrite IH. reflexivity.
Qed.

Lemma drop_last_app (stem ext : string) :
  Py.drop_last (String.length ext) (stem ++ ext) = stem.
Proof.
  unfold Py.drop_last. rewrite str_length_app.
  replace (String.length stem + String.length ext - String.length ext)%nat
    with (String.length stem) by lia.
  apply substring_prefix.
Qed.

(** X21.  The array name is the header name with its last two characters
    cut off, whatever they are: for a name [stem + ".h"] it is [stem],
    with a directory part if there is one, and for a name of at most two
    characters it is empty.  For an empty input [png_to_h] writes no row:
    the initialiser is empty and the length is 0. *)
Theorem X21_array_name_and_empty_input (header_file : string) :
  (forall stem, header_file = (stem ++ ".h")%string ->
                PngToH.png_to_h [] header_file
                = ("unsigned char " ++ stem ++ "[] = {" ++ Py.nl ++ "};" ++ Py.nl
                   ++ "unsigned int " ++ stem ++ "_len = 0;" ++ Py.nl)%string) /\
  (forall stem c1 c2, header_file = (stem ++ String c1 (String c2 ""))%string ->
                      Py.drop_last 2 header_file = stem) /\
  ((String.length header_file <= 2)%nat ->
   PngToH.png_to_h [] header_file
   = ("unsigned char [] = {" ++ Py.nl ++ "};" ++ Py.nl
      ++ "unsigned int _len = 0;" ++ Py.nl)%string).
Proof.
  split; [| split].
  - intros stem ->. unfold PngToH.png_to_h.
    pose proof (drop_last_app stem ".h") as E. cbn [String.length] in E.
    rewrite !E. cbn [List.length Py.range_step Nat.add Nat.sub Nat.div
      Nat.divmod fst seq map fold_left]. rewrite !str_app_assoc. reflexivity.
  - intros stem c1 c2 ->. exact (drop_last_app stem (String c1 (String c2 ""))).
  - intros H. unfold PngToH.png_to_h, Py.drop_last.
    replace (String.length header_file - 2)%nat with 0%nat by lia.
    destruct header_file; reflexivity.
Qed.

End PngFacts.

(** * Properties of [3dscene-to-gltf.py] *)

Section SceneFacts.
Import SceneToGltf.

Lemma is_str_true (v : option string) (s : string) :
  is_str v s = true <-> v = Some s.
Proof.
  destruct v as [t |]; cbn.
  - rewrite String.eqb_eq. split; congruence.
  - split; discriminate.
Qed.

Lemma is_str_false (v : option string) (s : string) :
  is_str v s = false <-> v <> Some s.
Proof.
  rewrite <- is_str_true. destruct (is_str v s); split; congruence.
Qed.

(** X15.  [infer_export_format] raises [ValueError] in two cases only:
    [embed] is set together with the format ["glb"], or the format is
    neither ["glb"] nor ["gltf"] and the lower-cased suffix of the output
    path is neither [".glb"] nor [".gltf"].  In every other case it
    returns one of ["GLB"], ["GLTF_EMBEDDED"], ["GLTF_SEPARATE"]. *)
Theorem X15_export_format_failure (suffix : string) (format_arg : option string)
    (embed : bool) :
  ((exists msg, infer_export_format suffix format_arg embed = ValueError msg) <->
   (embed = true /\ format_arg = Some "glb") \/
   (format_arg <> Some "glb" /\ format_arg <> Some "gltf" /\
    suffix <> ".glb" /\ suffix <> ".gltf")) /\
  (forall r, infer_export_format suffix format_arg embed = Returned r ->
             r = "GLB" \/ r = "GLTF_EMBEDDED" \/ r = "GLTF_SEPARATE") /\
  (forall msg, infer_export_format suffix format_arg embed <> SystemExit msg).
Proof.
  unfold infer_export_format.
  destruct (is_str format_arg "glb") eqn:Eglb;
    [apply is_str_true in Eglb | apply is_str_false in Eglb];
  (destruct (is_str format_arg "gltf") eqn:Egltf;
    [apply is_str_true in Egltf | apply is_str_false in Egltf]);
  (destruct (String.eqb suffix ".glb") eqn:Es1;
    [apply String.eqb_eq in Es1 | apply String.eqb_neq in Es1]);
  (destruct (String.eqb suffix ".gltf") eqn:Es2;
    [apply String.eqb_eq in Es2 | apply String.eqb_neq in Es2]);
  destruct embed; cbn [andb];
  (split; [split; [intros [msg H]; try discriminate H; tauto
                  | intros [[H1 H2] | (H1 & H2 & H3 & H4)];
                    try discriminate; try contradiction; try congruence; eauto]
          | split; [intros r H; first [discriminate H | injection H as <-; tauto]
                   | intros msg H; discriminate H]]).
Qed.

(** X16.  A format ["glb"] or ["gltf"] decides the result whatever the
    suffix of the output path is.  Without such a format a [".glb"]
    suffix gives ["GLB"] also when [embed] is set: the flag that raises
    together with the format ["glb"] is dropped without an error. *)
Theorem X16_format_overrides_suffix (format_arg : option string) (embed : bool) :
  (format_arg = Some "glb" \/ format_arg = Some "gltf" ->
   forall suffix1 suffix2,
     infer_export_format suffix1 format_arg embed
     = infer_export_format suffix2 format_arg embed) /\
  (format_arg <> Some "glb" -> format_arg <> Some "gltf" ->
   infer_export_format ".glb" format_arg embed = Returned "GLB").
Proof.
  split.
  - intros [-> | ->] suffix1 suffix2; destruct embed; reflexivity.
  - intros H1 H2. apply is_str_false in H1, H2.
    unfold infer_export_format. rewrite H1, H2, andb_false_r. reflexivity.
Qed.

Lemma X16_format_overrides_suffix_witness :
  infer_export_format ".glb" (Some "gltf") false
  = infer_export_format ".bin" (Some "gltf") false /\
  infer_export_format ".glb" None true = Returned "GLB".
Proof.
  split.
  - apply (proj1 (X16_format_overrides_suffix (Some "gltf") false)).
    right. reflexivity.
  - apply (proj2 (X16_format_overrides_suffix None true)); discriminate.
Defined.

(** X17.  The script of [build_blender_script], applied to the command
    line that [run_blender] builds, reads back the values that
    [run_blender] was called with: the two paths and the export format
    unchanged, whatever characters they hold, the two flags, and the
    texture directory with [None] turned into the empty string.  The
    Blender path and the script path must differ from ["--"]. *)
Theorem X17_command_line_round_trip
    (blender_bin script_path input_path output_path export_format : string)
    (apply_transform y_up : bool) (textures_dir : option string) :
  blender_bin <> "--" ->
  script_path <> "--" ->
  read_argv (command blender_bin script_path input_path output_path export_format
               apply_transform y_up textures_dir)
  = Returned {| arg_input_path := input_path;
                arg_output_path := output_path;
                arg_export_format := export_format;
                arg_apply_transform := apply_transform;
                arg_y_up := y_up;
                arg_textures_dir := or_empty textures_dir |}.
Proof.
  intros Hb Hs. apply String.eqb_neq in Hb, Hs.
  unfold read_argv, command. cbn [index]. rewrite Hb, Hs. cbn.
  destruct apply_transform, y_up; reflexivity.
Qed.

Lemma X17_command_line_round_trip_witness :
  read_argv (command "blender" "/tmp/tmpa.py" "in dir/--.fbx" "--" "GLB" true false None)
  = Returned {| arg_input_path := "in dir/--.fbx";
                arg_output_path := "--";
                arg_export_format := "GLB";
                arg_apply_transform := true;
                arg_y_up := false;
                arg_textures_dir := "" |}.
Proof.
  apply (X17_command_line_round_trip "blender" "/tmp/tmpa.py" "in dir/--.fbx" "--" "GLB"
           true false None); discriminate.
Defined.

End SceneFacts.

(** * Properties of [test.py] *)

Section TestFacts.
Import TestPy.

Variable sep : string.
Variable isfile : string -> bool.
Variable run : list string -> run_result.
Variable print_log_result : list string -> string -> bool.

(** The two rounds of one executable. *)
Lemma for_arguments_cases (e : string) (st : state) :
  for_arguments run print_log_result e test_arguments [join_dot sep e] 1%nat st
  = if uncaught run print_log_result e (first_call sep e)
    then Stops {| calls := calls st ++ [first_call sep e];
                  returncode := returncode st |}
    else
      let code1 := keep_failure (returncode st) (code_of run (first_call sep e)) in
      if uncaught run print_log_result e (second_call sep e)
      then Stops {| calls := calls st ++ [first_call sep e; second_call sep e];
                    returncode := code1 |}
      else Goes {| calls := calls st ++ [first_call sep e; second_call sep e];
                   returncode := keep_failure code1 (code_of run (second_call sep e)) |}.
Proof.
  unfold uncaught, code_of, keep_failure.
  cbn [for_arguments test_arguments app Nat.add calls returncode].
  change ([join_dot sep e; "-test"; "-test-frames"; "100"; "-screenshot";
           screenShotName e 1])
    with (first_call sep e).
  change ([join_dot sep e; "-test"; "-test-frames"; "100"; "-screenshot";
           screenShotName e 1; "-test"; "-test-frames"; "5"; "-sky"; "-raster";
           "-screenshot"; screenShotName e 2])
    with (second_call sep e).
  destruct (run (first_call sep e)) as [c1 |]; [| reflexivity].
  destruct (c1 =? 0) eqn:E1; cbn [andb negb].
  - destruct (print_log_result (first_call sep e) (log_file e)); cbn [negb];
      [| reflexivity].
    cbv zeta. cbn [calls returncode].
    destruct (run (second_call sep e)) as [c2 |];
      [| rewrite <- app_assoc; reflexivity].
    destruct (c2 =? 0) eqn:E2; cbn [andb negb].
    + destruct (print_log_result (second_call sep e) (log_file e)); cbn [negb];
        rewrite <- app_assoc; reflexivity.
    + rewrite <- app_assoc. reflexivity.
  - cbv zeta. cbn [calls returncode].
    destruct (run (second_call sep e)) as [c2 |];
      [| rewrite <- app_assoc; reflexivity].
    destruct (c2 =? 0) eqn:E2; cbn [andb negb].
    + destruct (print_log_result (second_call sep e) (log_file e)); cbn [negb];
        rewrite <- app_assoc; reflexivity.
    + rewrite <- app_assoc. reflexivity.
Qed.

Lemma for_executables_cons (e : string) (l : list string) (st : state) :
  for_executables sep run print_log_result (e :: l) st
  = match for_arguments run print_log_result e test_arguments [join_dot sep e] 1%nat st with
    | Goes st' => for_executables sep run print_log_result l st'
    | Stops st' => Stops st'
    end.
Proof. reflexivity. Qed.

Lemma no_uncaught_cons (e : string) (l : list string) :
  no_uncaught sep run print_log_result (e :: l) <->
  (uncaught run print_log_result e (first_call sep e) = false /\ uncaught run print_log_result e (second_call sep e) = false) /\
  no_uncaught sep run print_log_result l.
Proof.
  unfold no_uncaught. split.
  - intros H. split; [apply H; left; reflexivity |].
    intros e' He'. apply H. right. exact He'.
  - intros [He Hl] e' [<- | He']; [exact He | apply Hl; exact He'].
Qed.

(** Without an exception that is not caught, every call is made. *)
Lemma for_executables_goes (l : list string) (st : state) :
  no_uncaught sep run print_log_result l ->
  for_executables sep run print_log_result l st
  = Goes {| calls := calls st ++ all_calls sep l;
            returncode := fold_left keep_failure (map (code_of run) (all_calls sep l))
                            (returncode st) |}.
Proof.
  revert st. induction l as [| e l IH]; intros st H.
  - cbn. rewrite app_nil_r. destruct st; reflexivity.
  - apply no_uncaught_cons in H. destruct H as [[H1 H2] Hl].
    rewrite for_executables_cons, for_arguments_cases, H1, H2. cbv beta iota zeta.
    rewrite (IH _ Hl). cbn [calls returncode all_calls flat_map app map fold_left].
    rewrite <- app_assoc. reflexivity.
Qed.

(** A loop that ends has met no such exception; a loop that is left has
    met one, and has made a part of the calls, from the first one on. *)
Lemma for_executables_goes_inv (l : list string) (st st' : state) :
  for_executables sep run print_log_result l st = Goes st' -> no_uncaught sep run print_log_result l.
Proof.
  revert st. induction l as [| e l IH]; intros st H.
  - intros e [].
  - rewrite for_executables_cons, for_arguments_cases in H.
    destruct (uncaught run print_log_result e (first_call sep e)) eqn:H1; [discriminate H |].
    cbv beta iota zeta in H.
    destruct (uncaught run print_log_result e (second_call sep e)) eqn:H2; [discriminate H |].
    apply no_uncaught_cons. split; [split; assumption |]. exact (IH _ H).
Qed.

Lemma for_executables_stops_inv (l : list string) (st st' : state) :
  for_executables sep run print_log_result l st = Stops st' ->
  (exists e, In e l /\
             (uncaught run print_log_result e (first_call sep e) = true \/
              uncaught run print_log_result e (second_call sep e) = true)) /\
  exists rest, calls st ++ all_calls sep l = calls st' ++ rest.
Proof.
  revert st. induction l as [| e l IH]; intros st H.
  - discriminate H.
  - rewrite for_executables_cons, for_arguments_cases in H.
    cbn [all_calls flat_map app].
    destruct (uncaught run print_log_result e (first_call sep e)) eqn:H1.
    { inversion H; subst st'. cbn [calls]. split.
      - exists e. split; [left; reflexivity | left; exact H1].
      - exists (second_call sep e :: all_calls sep l).
        rewrite <- app_assoc. reflexivity. }
    cbv beta iota zeta in H.
    destruct (uncaught run print_log_result e (second_call sep e)) eqn:H2.
    { inversion H; subst st'. cbn [calls]. split.
      - exists e. split; [left; reflexivity | right; exact H2].
      - exists (all_calls sep l). rewrite <- app_assoc. reflexivity. }
    destruct (IH _ H) as [(e' & He' & Hu) [rest Hrest]]. cbn [calls] in Hrest.
    split.
    + exists e'. split; [right; exact He' | exact Hu].
    + exists rest. rewrite <- Hrest, <- app_assoc. reflexivity.
Qed.

Lemma last_failure_snoc (codes : list Z) (c : Z) :
  last_failure (codes ++ [c]) = keep_failure (last_failure codes) c.
Proof. unfold last_failure. rewrite fold_left_app. reflexivity. Qed.

Lemma last_failure_zeros (codes : list Z) (a : Z) :
  Forall (fun c => c = 0) codes -> fold_left keep_failure codes a = a.
Proof.
  intros H. revert a. induction H as [| c codes -> _ IH]; intros a; cbn; [| rewrite IH]; reflexivity.
Qed.

Lemma last_failure_spec (codes : list Z) :
  (last_failure codes = 0 <-> Forall (fun c => c = 0) codes) /\
  (forall c, c <> 0 ->
     (last_failure codes = c <->
      exists pre post, codes = pre ++ c :: post /\ Forall (fun c => c = 0) post)).
Proof.
  induction codes as [| x codes [IH0 IHc]] using rev_ind.
  - split.
    + split; [constructor | reflexivity].
    + intros c Hc. split.
      * cbn. congruence.
      * intros (pre & post & E & _). destruct pre; discriminate E.
  - rewrite last_failure_snoc. unfold keep_failure.
    destruct (Z.eqb_spec x 0) as [-> | Hx].
    + split.
      * rewrite IH0. split.
        -- intros H. apply Forall_app. split; [exact H | repeat constructor].
        -- intros H. apply Forall_app in H. tauto.
      * intros c Hc. rewrite (IHc c Hc). split.
        -- intros (pre & post & -> & Hp). exists pre, (post ++ [0]).
           rewrite <- app_assoc. split; [reflexivity |].
           apply Forall_app. split; [exact Hp | repeat constructor].
        -- intros (pre & post & E & Hp).
           destruct post as [| y post] using rev_ind.
           ++ apply app_inj_tail in E. destruct E as [_ E]. congruence.
           ++ clear IHpost. change (pre ++ c :: post ++ [y]) with (pre ++ (c :: post) ++ [y]) in E.
              rewrite app_assoc in E. apply app_inj_tail in E. destruct E as [-> _].
              exists pre, post. split; [reflexivity |].
              apply Forall_app in Hp. tauto.
    + split.
      * split; [contradiction |].
        intros H. apply Forall_app in H. destruct H as [_ H].
        inversion H; subst. contradiction.
      * intros c Hc. split.
        -- intros <-. exists codes, []. split; [reflexivity | constructor].
        -- intros (pre & post & E & Hp).
           destruct post as [| y post] using rev_ind.
           ++ apply app_inj_tail in E. tauto.
           ++ clear IHpost. change (pre ++ c :: post ++ [y]) with (pre ++ (c :: post) ++ [y]) in E.
              rewrite app_assoc in E. apply app_inj_tail in E. destruct E as [_ ->].
              apply Forall_app in Hp. destruct Hp as [_ Hp].
              inversion Hp; subst. contradiction.
Qed.

Lemma codes_all_zero (l : list string) :
  Forall (fun c => c = 0) (map (code_of run) (all_calls sep l)) <->
  forall e, In e l ->
    code_of run (first_call sep e) = 0 /\ code_of run (second_call sep e) = 0.
Proof.
  unfold all_calls. rewrite Forall_map, Forall_flat_map, Forall_forall. split.
  - intros H e He. specialize (H e He).
    inversion H as [| ? ? H1 H']; subst. inversion H' as [| ? ? H2 _]; subst. auto.
  - intros H e He. destruct (H e He) as [H1 H2]. repeat constructor; assumption.
Qed.

Lemma quiet_call (e : string) (args : list string) :
  uncaught run print_log_result e args = false /\ code_of run args = 0 <->
  run args = Exited 0 /\ print_log_result args (log_file e) = true.
Proof.
  unfold uncaught, code_of. destruct (run args) as [c |].
  - destruct (Z.eqb_spec c 0) as [-> | Hc]; cbn [andb].
    + destruct (print_log_result args (log_file e)); cbn [negb];
        split; intros [H1 H2]; split; congruence.
    + split; intros [H1 H2]; [contradiction | congruence].
  - split; intros [H1 H2]; discriminate.
Qed.


(** X19.  [test] is left by an exception exactly when, for a selected
    executable, one of its two calls does not start a process or returns
    0 and the printing of the log raises.  It returns exactly when every
    call returned 0 and every printing of the log returned.  Otherwise it
    exits, and the exit code is the return code of the last process that
    failed: the codes of earlier failures are overwritten.  Without the
    test directory it returns and runs nothing. *)
Theorem X19_exit_code_is_last_failure (listing : list string) :
  let selected := executables sep isfile listing in
  let made := fst (test sep isfile run print_log_result true listing) in
  let ending := snd (test sep isfile run print_log_result true listing) in
  (ending = Raises <->
   exists e, In e selected /\
             (uncaught run print_log_result e (first_call sep e) = true \/
              uncaught run print_log_result e (second_call sep e) = true)) /\
  (ending = Returns <->
   forall e, In e selected ->
     (run (first_call sep e) = Exited 0 /\
      print_log_result (first_call sep e) (log_file e) = true) /\
     (run (second_call sep e) = Exited 0 /\
      print_log_result (second_call sep e) (log_file e) = true)) /\
  (forall c, ending = Exits c <->
             c <> 0 /\
             no_uncaught sep run print_log_result selected /\
             exists pre post,
               map (code_of run) made = pre ++ c :: post /\
               Forall (fun c => c = 0) post) /\
  test sep isfile run print_log_result false listing = ([], Returns).
Proof.
  cbv zeta. unfold test. cbn [negb].
  set (selected := executables sep isfile listing).
  destruct (for_executables sep run print_log_result selected
              {| calls := []; returncode := 0 |}) as [st | st] eqn:E.
  - pose proof (for_executables_goes_inv _ _ _ E) as Hq.
    rewrite (for_executables_goes _ _ Hq) in E. inversion E; subst st.
    cbn [fst snd calls returncode app].
    change (fold_left keep_failure (map (code_of run) (all_calls sep selected)) 0)
      with (last_failure (map (code_of run) (all_calls sep selected))).
    destruct (last_failure_spec (map (code_of run) (all_calls sep selected)))
      as [H0 Hc].
    split; [| split; [| split; [| reflexivity]]].
    + split.
      * destruct (negb _); discriminate.
      * intros (e & He & Hu). destruct (Hq e He) as [H1 H2].
        destruct Hu as [Hu | Hu]; congruence.
    + destruct (Z.eqb_spec (last_failure (map (code_of run) (all_calls sep selected))) 0)
        as [Ez | Ez]; cbn [negb].
      * split; [intros _ | reflexivity].
        pose proof (proj1 (codes_all_zero selected) (proj1 H0 Ez)) as Hz.
        intros e He. destruct (Hq e He) as [H1 H2]. destruct (Hz e He) as [Z1 Z2].
        split; apply (proj1 (quiet_call e _)); split; assumption.
      * split; [discriminate |]. intros H. contradiction Ez. apply (proj2 H0).
        apply (proj2 (codes_all_zero selected)). intros e He.
        destruct (H e He) as [G1 G2].
        apply (proj2 (quiet_call e _)) in G1. apply (proj2 (quiet_call e _)) in G2.
        tauto.
    + intros c.
      destruct (Z.eqb_spec (last_failure (map (code_of run) (all_calls sep selected))) 0)
        as [Ez | Ez]; cbn [negb].
      * split; [discriminate |]. intros (Hne & _ & H). apply (Hc c Hne) in H. congruence.
      * split.
        -- intros H. injection H as <-. split; [exact Ez |]. split; [exact Hq |].
           apply (Hc _ Ez). reflexivity.
        -- intros (Hne & _ & H). apply (Hc c Hne) in H. congruence.
  - destruct (for_executables_stops_inv _ _ _ E) as [(e & He & Hu) _].
    cbn [fst snd].
    assert (Hnot : ~ no_uncaught sep run print_log_result selected).
    { intros Hq. rewrite (for_executables_goes _ _ Hq) in E. discriminate E. }
    split; [| split; [| split; [| reflexivity]]].
    + split; [intros _; exists e; auto | reflexivity].
    + split; [discriminate |]. intros H. contradiction Hnot.
      intros e' He'. destruct (H e' He') as [G1 G2].
      apply (proj2 (quiet_call e' _)) in G1. apply (proj2 (quiet_call e' _)) in G2.
      tauto.
    + intros c. split; [discriminate |]. intros (_ & Hq & _). contradiction.
Qed.

Lemma substring_split (n : nat) (s : string) :
  (n <= String.length s)%nat ->
  (substring 0 n s ++ substring n (String.length s - n) s)%string = s.
Proof.
  revert s. induction n as [| n IH]; intros s Hn.
  - cbn [substring]. destruct s as [| c s]; cbn.
    + reflexivity.
    + f_equal. clear. induction s as [| d s IH]; cbn; [| rewrite IH]; reflexivity.
  - destruct s as [| c s]; cbn in Hn; [lia |].
    cbn [substring String.length Nat.sub append]. f_equal. apply IH. lia.
Qed.

Lemma endswith_split (s t : string) :
  Py.endswith s t = true ->
  s = (Py.drop_last (String.length t) s ++ t)%string.
Proof.
  unfold Py.endswith, Py.drop_last. intros H.
  apply andb_true_iff in H. destruct H as [Hl He].
  apply Nat.leb_le in Hl. apply String.eqb_eq in He.
  assert (E := substring_split (String.length s - String.length t) s ltac:(lia)).
  replace (String.length s - (String.length s - String.length t))%nat
    with (String.length t) in E by lia.
  rewrite He in E. symmetry. exact E.
Qed.

(** X20.  Every executable that [test] selects is an entry of the listing
    whose name is a stem followed by [".exe"] or ["_app"]; the slice
    [executable[:-4]] is that stem, so the screenshot of round [k] is
    named ["snap_" + stem + "_" + str(k) + ".jpg"]. *)
Theorem X20_selected_names_and_stems (listing : list string) (executable : string) :
  In executable (executables sep isfile listing) ->
  In executable listing /\
  isfile (join_dot sep executable) = true /\
  exists stem,
    (executable = (stem ++ ".exe")%string \/ executable = (stem ++ "_app")%string) /\
    Py.drop_last 4 executable = stem /\
    forall k, screenShotName executable k
              = ("snap_" ++ stem ++ "_" ++ Py.str_of_nat k ++ ".jpg")%string.
Proof.
  unfold executables. intros H. apply filter_In in H. destruct H as [Hin H].
  apply andb_true_iff in H. destruct H as [Hf He].
  split; [exact Hin | split; [exact Hf |]].
  exists (Py.drop_last 4 executable). split; [| split; [reflexivity | reflexivity]].
  apply orb_true_iff in He. destruct He as [He | He]; [left | right];
    exact (endswith_split _ _ He).
Qed.

End TestFacts.

Lemma X20_selected_names_and_stems_witness :
  In "viewer.exe" ["notes.txt"; "viewer.exe"] /\
  (fun _ : string => true) (TestPy.join_dot "/" "viewer.exe") = true /\
  exists stem,
    ("viewer.exe" = (stem ++ ".exe")%string \/ "viewer.exe" = (stem ++ "_app")%string) /\
    Py.drop_last 4 "viewer.exe" = stem /\
    forall k, TestPy.screenShotName "viewer.exe" k
              = ("snap_" ++ stem ++ "_" ++ Py.str_of_nat k ++ ".jpg")%string.
Proof.
  apply (X20_selected_names_and_stems "/" (fun _ => true)
           ["notes.txt"; "viewer.exe"] "viewer.exe").
  cbn. left. reflexivity.
Defined.
